(** * A shallow embedding of the web-page harvester (app.js and its
      later variant) and the properties of its specification.

    JavaScript strings are sequences of UTF-16 code units; they are
    modelled as [list N], one number per code unit.  The in-memory
    cache and the file system are finite maps; the network, the HTML
    parsers and the URL parser are parameters of the development. *)

From Stdlib Require Import NArith ZArith Ascii String DecimalString.
From stdpp Require Import base option list gmap strings.

Open Scope N_scope.

(** ** JavaScript strings *)

Module JS.

(** A string literal of the source, as code units. *)
Definition lit (s : string) : list N :=
  N_of_ascii <$> list_ascii_of_string s.

(** The decimal rendering of a number inside a template literal. *)
Definition dec (n : N) : list N :=
  lit (NilZero.string_of_uint (N.to_uint n)).

#[global] Arguments lit : simpl never.
#[global] Arguments dec : simpl never.

(** [\s] of a regular expression, and the characters [trim] removes:
    ECMAScript WhiteSpace and LineTerminator. *)
Definition is_space (c : N) : bool :=
  existsb (N.eqb c)
    [9; 10; 11; 12; 13; 32; 160; 5760; 8232; 8233; 8239; 8287; 12288; 65279]
  || ((8192 <=? c) && (c <=? 8202)).

(** [\w] of a regular expression without the [i] and [u] flags. *)
Definition is_word (c : N) : bool :=
  ((48 <=? c) && (c <=? 57)) || ((65 <=? c) && (c <=? 90))
  || ((97 <=? c) && (c <=? 122)) || (c =? 95).

(** [s.startsWith(p)] *)
Fixpoint startsWith (p s : list N) : bool :=
  match p, s with
  | [], _ => true
  | a :: p', b :: s' => (a =? b) && startsWith p' s'
  | _ :: _, [] => false
  end.

(** [s.endsWith(p)] *)
Definition endsWith (p s : list N) : bool :=
  startsWith (reverse p) (reverse s).

(** [s.indexOf(p)], with -1 when [p] does not occur. *)
Fixpoint indexOf_from (i : Z) (p s : list N) : Z :=
  if startsWith p s then i
  else match s with
       | [] => (-1)%Z
       | _ :: s' => indexOf_from (i + 1) p s'
       end.

Definition indexOf (p s : list N) : Z := indexOf_from 0 p s.

(** [s.includes(p)] *)
Definition includes (p s : list N) : bool := (0 <=? indexOf p s)%Z.

(** [s.substring(a, b)]: both indices are clamped to [0, length] and
    swapped when the first is the larger. *)
Definition substring (a b : Z) (s : list N) : list N :=
  let n := Z.of_nat (length s) in
  let a' := Z.min (Z.max a 0) n in
  let b' := Z.min (Z.max b 0) n in
  let lo := Z.min a' b' in
  let hi := Z.max a' b' in
  take (Z.to_nat (hi - lo)) (drop (Z.to_nat lo) s).

(** [s.split('\n')] *)
Fixpoint split_lines (s : list N) : list (list N) :=
  match s with
  | [] => [[]]
  | c :: r =>
      if c =? 10 then [] :: split_lines r
      else match split_lines r with
           | l :: ls => (c :: l) :: ls
           | [] => [[c]]
           end
  end.

(** [s.trim()] *)
Fixpoint ltrim (s : list N) : list N :=
  match s with
  | [] => []
  | c :: r => if is_space c then ltrim r else s
  end.

Fixpoint rtrim (s : list N) : list N :=
  match s with
  | [] => []
  | c :: r =>
      match rtrim r with
      | [] => if is_space c then [] else [c]
      | r' => c :: r'
      end
  end.

Definition trim (s : list N) : list N := rtrim (ltrim s).

End JS.

Import JS.

(** ** Text normalizer: [processData] *)

Module Normalizer.

(** [/http\S+/] matches at the head of [s]. *)
Definition http_at (s : list N) : bool :=
  match s with
  | a :: b :: c :: d :: e :: _ =>
      (a =? 104) && (b =? 116) && (c =? 116) && (d =? 112) && negb (is_space e)
  | _ => false
  end.

(** [text.replace(/http\S+/g, '')].  The scan goes from left to right;
    [inside] says that the scan is within a match, which extends
    greedily to the next whitespace character. *)
Fixpoint strip_urls (inside : bool) (s : list N) : list N :=
  match s with
  | [] => []
  | c :: r =>
      if inside then
        if is_space c then c :: strip_urls false r else strip_urls true r
      else if http_at s then strip_urls true r
      else c :: strip_urls false r
  end.

(** [text.replace(/\s+/g, ' ')]; [after_space] says that the previous
    character belongs to the whitespace run being replaced. *)
Fixpoint squeeze (after_space : bool) (s : list N) : list N :=
  match s with
  | [] => []
  | c :: r =>
      if is_space c then
        if after_space then squeeze true r else 32 :: squeeze true r
      else c :: squeeze false r
  end.

(** The class [([^\w\s]|_)]. *)
Definition is_symbol (c : N) : bool :=
  negb (is_word c || is_space c) || (c =? 95).

(** [/([^\w\s]|_)\1+/] matches at the head of [s]. *)
Definition pair_at (s : list N) : bool :=
  match s with
  | c :: d :: _ => is_symbol c && (c =? d)
  | _ => false
  end.

(** [text.replace(/([^\w\s]|_)\1+/g, '')]; [run] is the character of
    the run being deleted, if the scan is within a match. *)
Fixpoint drop_runs (run : option N) (s : list N) : list N :=
  match s with
  | [] => []
  | c :: r =>
      if decide (run = Some c) then drop_runs run r
      else if pair_at s then drop_runs (Some c) r
      else c :: drop_runs None r
  end.

Definition processData (text : list N) : list N :=
  let processedText := strip_urls false text in
  let processedText := squeeze false processedText in
  let processedText := drop_runs None processedText in
  trim processedText.

(** A text is free of a pattern when the pattern matches at no
    position. *)
Fixpoint free_of (pat : list N → bool) (s : list N) : bool :=
  match s with
  | [] => true
  | _ :: r => negb (pat s) && free_of pat r
  end.

(** A whitespace character that [squeeze] would change: one that is not
    a plain space, or one followed by more whitespace. *)
Definition loose_space_at (s : list N) : bool :=
  match s with
  | c :: r =>
      is_space c
      && (negb (c =? 32) || match r with d :: _ => is_space d | [] => false end)
  | [] => false
  end.


End Normalizer.

Import Normalizer.

(** ** The harvester *)

Module Harvester.

(** The repository holds the program twice: [Original] is src/app.js,
    [Revised] is its later copy (src/unnamed/part_000) with the
    transport fallback and the challenge detection. *)
Inductive variant := Original | Revised.

Record error := Error { name : list N; message : list N }.

(** An error inside a template literal: [`${error}`]. *)
Definition show (e : error) : list N :=
  match message e with
  | [] => name e
  | m => name e ++ lit ": " ++ m
  end.

Definition TypeError (m : string) : error := Error (lit "TypeError") (lit m).
Definition PlainError (m : list N) : error := Error (lit "Error") m.
Definition SystemError (m : string) : error := Error (lit "Error") (lit m).

(** The members every object inherits from [Object.prototype]: for
    these keys [key in cache] is true although the cache has no such
    entry. *)
Definition object_prototype_keys : list (list N) :=
  lit <$> ["constructor"; "__defineGetter__"; "__defineSetter__";
           "hasOwnProperty"; "__lookupGetter__"; "__lookupSetter__";
           "isPrototypeOf"; "propertyIsEnumerable"; "toString"; "valueOf";
           "__proto__"; "toLocaleString"]%string.

(** What [cache[url]] can evaluate to. *)
Inductive value :=
  | VString (s : list N)
  | VInherited (key : list N).

Inductive outcome :=
  | Resolved (body : list N)
  | Rejected (e : error).

(** [fetchWebPage] returns the cached value itself on a hit and a
    promise otherwise. *)
Inductive fetched :=
  | Raw (v : value)
  | Promise (o : outcome).

(** The network: what the transports answer to one request. *)
Record incoming := {
  statusCode : N;
  statusMessage : list N;
  server : option (list N);      (* response.headers['server'] *)
  chunks : list (list N)         (* the 'data' events *)
}.

Inductive transport :=
  | ConnError (msg : list N)     (* the 'error' event of the request *)
  | Answer (r : incoming).

Record exchange := {
  via_https : transport;  (* https.get *)
  via_http : transport;   (* http.get *)
  via_request : outcome   (* request-promise: request.get *)
}.

(** What a route handler sends back. *)
Inductive payload :=
  | Plain (s : list N)
  | Json (fields : list (string * list N))
  | Attachment (data : list N).

Record res := { status : N; body : payload }.

(** An uploaded file: its name and [buffer.toString('utf-8')]. *)
Record upload := { originalname : list N; text : list N }.

(** A parsed document. *)
#[local] Set Warnings "-register-all".
Inductive dom :=
  | Text (s : list N)
  | Element (tag : list N) (children : list dom).

Inductive node :=
  | File (data : list N)
  | Folder (entries : gmap (list N) (list N)).

(** A [setTimeout] callback; all of them delete a folder if it still
    exists. *)
Record timer := { delay : N; target : list N }.

(** The journal of effects, most recent first. *)
Inductive entry :=
  | Requested (url : list N)
  | MadeDir (path : list N)
  | Saved (url path file : list N)
  | Created (path : list N)
  | Removed (path : list N)
  | Logged (line : list N)
  | ConsoleError (line : list N)
  | ConsoleLog (line : list N).

Record world := {
  cache : gmap (list N) (list N);
  fs : gmap (list N) node;
  timers : list timer;      (* the timers set so far, oldest first *)
  journal : list entry;
  requests : nat
}.

Definition set_cache (f : gmap (list N) (list N) → gmap (list N) (list N))
    (w : world) : world :=
  {| cache := f (cache w); fs := fs w; timers := timers w;
     journal := journal w; requests := requests w |}.

Definition set_fs (f : gmap (list N) node → gmap (list N) node)
    (w : world) : world :=
  {| cache := cache w; fs := f (fs w); timers := timers w;
     journal := journal w; requests := requests w |}.

Definition note (e : entry) (w : world) : world :=
  {| cache := cache w; fs := fs w; timers := timers w;
     journal := e :: journal w; requests := requests w |}.

Definition add_timer (t : timer) (w : world) : world :=
  {| cache := cache w; fs := fs w; timers := timers w ++ [t];
     journal := journal w; requests := requests w |}.

Definition count_request (w : world) : world :=
  {| cache := cache w; fs := fs w; timers := timers w;
     journal := journal w; requests := S (requests w) |}.

(** The libraries and the environment the program runs against. *)
Class Platform := {
  dirname : list N;                        (* __dirname *)
  cwd : list N;                            (* the working directory *)
  hostname : list N → option (list N);     (* new URL(u).hostname, None when it throws *)
  parse_html : value → list dom;           (* cheerio.load *)
  anchors : value → list (list N);         (* JSDOM: the href of every a[href] *)
  encodeURIComponent : list N → option (list N);
  decodeURIComponent : list N → option (list N);
  archive_of : gmap (list N) (list N) → list N;   (* archiver('zip') *)
  net : nat → list N → exchange
}.

(** The URLs whose artifact has been written, most recent first. *)
Definition saved_urls (w : world) : list (list N) :=
  omap (λ e, match e with Saved url _ _ => Some url | _ => None end)
       (journal w).

(** *** Computations: a state and exception monad *)

Inductive result (A : Type) :=
  | Ok (a : A)
  | Throw (e : error).
Arguments Ok {A} a.
Arguments Throw {A} e.

Definition M (A : Type) : Type := world → result A * world.

#[global] Instance M_ret : MRet M := λ A a w, (Ok a, w).
#[global] Instance M_bind : MBind M := λ A B k m w,
  match m w with
  | (Ok a, w') => k a w'
  | (Throw e, w') => (Throw e, w')
  end.

Definition throw {A} (e : error) : M A := λ w, (Throw e, w).
Definition effect (f : world → world) : M unit := λ w, (Ok (), f w).
Definition inspect {A} (f : world → A) : M A := λ w, (Ok (f w), w).

(** [try { m } catch (e) { ... }] up to the handler: the exception is
    handed over as a value, the effects of [m] stay. *)
Definition attempt {A} (m : M A) : M (result A) := λ w,
  let (r, w') := m w in (Ok r, w').

Definition logEvent (event : list N) : M unit := effect (note (Logged event)).
Definition console_error (line : list N) : M unit :=
  effect (note (ConsoleError line)).
Definition console_log (line : list N) : M unit :=
  effect (note (ConsoleLog line)).

Section Program.
Context `{!Platform}.

(** *** The file system *)

Definition resolve (p : list N) : list N :=
  if startsWith (lit "/") p then p else cwd ++ lit "/" ++ p.

Definition existsSync (p : list N) (w : world) : bool :=
  bool_decide (is_Some (fs w !! resolve p)).

Definition isDirectory (p : list N) (w : world) : bool :=
  match fs w !! resolve p with
  | Some (Folder _) => true
  | _ => false
  end.

(** [fs.mkdirSync(p, { recursive: true })] *)
Definition mkdirSync (p : list N) : M unit := λ w,
  match fs w !! resolve p with
  | Some (Folder _) => (Ok (), w)
  | Some (File _) => (Throw (SystemError "EEXIST: file already exists"), w)
  | None => (Ok (), note (MadeDir (resolve p)) (set_fs <[resolve p := Folder ∅]> w))
  end.

(** [fs.writeFileSync(`${folder}/${file}`, data)] *)
Definition writeFileSync (folder file data : list N) : M unit := λ w,
  match fs w !! resolve folder with
  | Some (Folder es) =>
      (Ok (), set_fs <[resolve folder := Folder (<[file := data]> es)]> w)
  | Some (File _) => (Throw (SystemError "ENOTDIR: not a directory"), w)
  | None => (Throw (SystemError "ENOENT: no such file or directory"), w)
  end.

(** [fs.readdirSync(p)] *)
Definition readdirSync (p : list N) : M (list (list N)) := λ w,
  match fs w !! resolve p with
  | Some (Folder es) => (Ok (map_to_list es).*1, w)
  | Some (File _) => (Throw (SystemError "ENOTDIR: not a directory"), w)
  | None => (Throw (SystemError "ENOENT: no such file or directory"), w)
  end.

(** The number of files in a folder; none when there is no such
    folder. *)
Definition file_count (p : list N) (w : world) : nat :=
  match fs w !! resolve p with
  | Some (Folder es) => size es
  | _ => 0%nat
  end.

(** The guarded removal used by every timer and by the download:
    [if (fs.existsSync(p)) fs.rm(p, { recursive: true })]. *)
Definition deleteFolder (p : list N) : M unit := λ w,
  if existsSync p w
  then (Ok (), note (Removed (resolve p)) (set_fs (delete (resolve p)) w))
  else (Ok (), w).

Definition setTimeout (p : list N) (ms : N) : M unit :=
  effect (add_timer {| delay := ms; target := resolve p |}).

(** A timer fires: its folder is deleted if it is still there. *)
Definition fire (t : timer) : M unit := deleteFolder (target t).

(** *** Content extractor: [scrapeData] *)

Fixpoint text_of (d : dom) : list N :=
  match d with
  | Text s => s
  | Element _ cs =>
      (fix all cs := match cs with [] => [] | c :: r => text_of c ++ all r end) cs
  end.

(** [$(tag)]: the elements with that tag, in document order. *)
Fixpoint select (tag : list N) (d : dom) : list dom :=
  match d with
  | Text _ => []
  | Element t cs =>
      (if decide (t = tag) then [d] else [])
      ++ (fix all cs := match cs with [] => [] | c :: r => select tag c ++ all r end) cs
  end.

(** [$(tag).remove()] *)
Fixpoint remove (tag : list N) (d : dom) : list dom :=
  match d with
  | Text _ => [d]
  | Element t cs =>
      if decide (t = tag) then []
      else [Element t
              ((fix all cs := match cs with [] => [] | c :: r => remove tag c ++ all r end) cs)]
  end.

(** No element with that tag occurs in the document, at any depth. *)
Definition without (tag : list N) (doc : list dom) : Prop :=
  doc ≫= select tag = [].

Definition excludedTags (v : variant) : list (list N) :=
  lit <$> (["a"; "button"; "link"; "script"; "form"; "i"; "input"; "video";
            "image"; "textarea"; "img"; "vid"; "iframe"; "footer"]%string
           ++ match v with Original => [] | Revised => ["form"%string] end).

Definition scrapeData (v : variant) (htmlContent : value) : list N * list N :=
  let doc := parse_html htmlContent in
  let title := mjoin (text_of <$> (doc ≫= select (lit "title"))) in
  let doc := foldl (λ doc tag, doc ≫= remove tag) doc (excludedTags v) in
  let bodyContent := mjoin (text_of <$> (doc ≫= select (lit "body"))) in
  (title, bodyContent).

(** *** [JSON.stringify({ title, content })] *)

Definition hex_digit (n : N) : N := if n <? 10 then 48 + n else 87 + n.

Definition unicode_escape (c : N) : list N :=
  [92; 117; hex_digit (c / 4096 mod 16); hex_digit (c / 256 mod 16);
   hex_digit (c / 16 mod 16); hex_digit (c mod 16)].

Definition is_high_surrogate (c : N) : bool := (55296 <=? c) && (c <=? 56319).
Definition is_low_surrogate (c : N) : bool := (56320 <=? c) && (c <=? 57343).

Definition quote_unit (c : N) : list N :=
  if c =? 8 then lit "\b" else if c =? 9 then lit "\t"
  else if c =? 10 then lit "\n" else if c =? 12 then lit "\f"
  else if c =? 13 then lit "\r" else if c =? 34 then [92; 34]
  else if c =? 92 then [92; 92]
  else if (c <? 32) || is_low_surrogate c then unicode_escape c
  else [c].

Fixpoint quote_units (s : list N) : list N :=
  match s with
  | [] => []
  | c :: r =>
      if is_high_surrogate c then
        match r with
        | d :: r' =>
            if is_low_surrogate d then c :: d :: quote_units r'
            else unicode_escape c ++ quote_units r
        | [] => unicode_escape c
        end
      else quote_unit c ++ quote_units r
  end.

Definition JSON_string (s : list N) : list N := [34] ++ quote_units s ++ [34].

Definition JSON_title_content (title content : list N) : list N :=
  [123] ++ JSON_string (lit "title") ++ [58] ++ JSON_string title ++ [44]
  ++ JSON_string (lit "content") ++ [58] ++ JSON_string content ++ [125].

(** *** URL fetcher: [fetchWebPage] *)

(** [url in cache] and [cache[url]] *)
Definition in_cache (url : list N) (c : gmap (list N) (list N)) : option value :=
  match c !! url with
  | Some s => Some (VString s)
  | None =>
      if bool_decide (url ∈ object_prototype_keys) then Some (VInherited url)
      else None
  end.

(** The response callback, which the revised source repeats for each
    of its three transport calls. *)
Definition on_response (url : list N) (response : incoming) : M fetched :=
  if statusCode response =? 200 then
    let responseData := mjoin (chunks response) in
    effect (set_cache <[url := responseData]>);;
    mret (Promise (Resolved responseData))
  else if (statusCode response =? 403)
          && bool_decide (server response = Some (lit "cloudflare")) then
    mret (Promise (Resolved (lit "skip")))
  else
    mret (Promise (Rejected (PlainError
      (lit "Error fetching web page: " ++ dec (statusCode response)
       ++ lit " " ++ statusMessage response)))).

Definition on_error (msg : list N) : outcome :=
  Rejected (PlainError (lit "Error fetching web page: " ++ msg)).

Definition fetchWebPage (v : variant) (url : list N) : M fetched :=
  hit ← inspect (λ w, in_cache url (cache w));
  match hit with
  | Some cached => mret (Raw cached)
  | None =>
      x ← inspect (λ w, net (requests w) url);
      effect (λ w, note (Requested url) (count_request w));;
      match v with
      | Original =>
          match via_request x with
          | Resolved response =>
              effect (set_cache <[url := response]>);;
              mret (Promise (Resolved response))
          | Rejected e =>
              let errorMessage := lit "Error fetching web page: " ++ show e in
              console_error errorMessage;;
              logEvent errorMessage;;
              mret (Promise (Rejected e))
          end
      | Revised =>
          if startsWith (lit "https://") url then
            match via_https x with
            | Answer response => on_response url response
            | ConnError _ =>
                match via_http x with
                | Answer response => on_response url response
                | ConnError msg => mret (Promise (on_error msg))
                end
            end
          else
            match via_http x with
            | Answer response => on_response url response
            | ConnError msg => mret (Promise (on_error msg))
            end
      end
  end.

(** The response that reaches the callback of [fetchWebPage]: the one
    of the secure transport, the one of the insecure transport after a
    connection error of the secure one, or the one of the insecure
    transport for a URL that does not start with [https://]. *)
Inductive delivered (url : list N) (x : exchange) (r : incoming) : Prop :=
  | by_https :
      startsWith (lit "https://") url = true →
      via_https x = Answer r → delivered url x r
  | by_fallback msg :
      startsWith (lit "https://") url = true →
      via_https x = ConnError msg → via_http x = Answer r →
      delivered url x r
  | by_http :
      startsWith (lit "https://") url = false →
      via_http x = Answer r → delivered url x r.


(** [await fetchWebPage(url)] *)
Definition await (f : fetched) : M value :=
  match f with
  | Raw cached => mret cached
  | Promise (Resolved s) => mret (VString s)
  | Promise (Rejected e) => throw e
  end.

(** *** Ephemeral artifact store: [saveData] *)

Definition minutes (n : N) : N := n * 60 * 1000.

Definition save_ttl (v : variant) : N :=
  match v with Original => minutes 3 | Revised => minutes 10 end.

Definition serialize (title processedText outputFormat : list N) : list N :=
  if decide (outputFormat = lit "json")
  then JSON_title_content title processedText
  else processedText.

Definition saveData (v : variant)
    (url title processedText folderName outputFormat : list N) : M unit :=
  match hostname url with
  | None => throw (TypeError "Invalid URL")
  | Some domain =>
      let folderPath := dirname ++ lit "/" ++ folderName in
      let file := domain ++ lit "." ++ outputFormat in
      present ← inspect (existsSync folderPath);
      (if present : bool then mret () else mkdirSync folderPath);;
      let data := serialize title processedText outputFormat in
      writeFileSync folderPath file data;;
      effect (note (Saved url (resolve folderPath) file));;
      effect (set_cache (delete url));;
      setTimeout folderPath (save_ttl v)
  end.

(** *** The pipeline of the explicit-list mode: [processUrl] *)

Definition not_thenable : error :=
  TypeError "fetchWebPage(...).then is not a function".

Definition processUrl (v : variant) (url outputFormat folderName : list N)
    : M unit :=
  f ← fetchWebPage v url;
  match f with
  | Raw _ => throw not_thenable
  | Promise o =>
      r ← attempt
            match o with
            | Resolved htmlContent =>
                let '(title, bodyContent) := scrapeData v (VString htmlContent) in
                let processedText := processData bodyContent in
                saveData v url title processedText folderName outputFormat
            | Rejected e => throw e
            end;
      match r with
      | Ok _ => mret ()
      | Throw e =>
          let errorMessage :=
            lit "Error processing URL: " ++ url ++ lit ", " ++ show e in
          console_error errorMessage;;
          logEvent errorMessage
      end
  end.

(** *** Job ids and folder names *)

(** [uuidv4().replace(/-/g, '').slice(0, 10)] *)
Definition job_id (uuid : list N) : list N :=
  take 10 (filter (λ c, c ≠ 45) uuid).

(** [topic.replace(/ /g, '_')] *)
Definition underscored (topic : list N) : list N :=
  (λ c, if c =? 32 then 95 else c) <$> topic.

Definition notice (v : variant) (folderName : list N) : list N :=
  match v with
  | Original =>
      lit "Data folder " ++ folderName
      ++ lit " will be deleted after 3 minutes starting from now"
  | Revised =>
      lit "Data folder " ++ [34] ++ folderName ++ [34]
      ++ lit " will be deleted after 10 minutes starting from now"
  end.

(** *** Explicit-list mode: [app.post('/file')] *)

Definition invalid_file : res :=
  {| status := 400;
     body := Plain (lit "Invalid file format. Please upload a .txt file.") |}.

Definition too_many : res :=
  {| status := 400;
     body := Plain (lit "Only 50 URLs are allowed. Skipping remaining URLs.") |}.

Definition headers_sent : error :=
  Error (lit "Error")
        (lit "Cannot set headers after they are sent to the client").

(** The state of the handler while it walks the lines. *)
Record progress := {
  urlCount : nat;
  launched : list (list N);     (* the pipelines started, in order *)
  sent : option res             (* the response, once sent *)
}.

(** [res.status(..).send(..)]: a second response on the same request
    throws. *)
Definition send (r : res) (p : progress) : result progress :=
  match sent p with
  | Some _ => Throw headers_sent
  | None =>
      Ok {| urlCount := urlCount p; launched := launched p; sent := Some r |}
  end.

(** [lines.forEach(...)].  The pipelines started here settle after the
    handler has returned, so the cache is the same at every line; the
    call [processUrl(url, ..)] itself throws when [fetchWebPage] hands
    back a cached value instead of a promise. *)
Fixpoint forEach_line (c : gmap (list N) (list N)) (lines : list (list N))
    (p : progress) : progress * option error :=
  match lines with
  | [] => (p, None)
  | url :: rest =>
      if bool_decide (trim url ≠ []) then
        if (50 <=? urlCount p)%nat then
          match send too_many p with
          | Ok p' => forEach_line c rest p'
          | Throw e => (p, Some e)
          end
        else
          match in_cache url c with
          | Some _ => (p, Some not_thenable)
          | None =>
              forEach_line c rest
                {| urlCount := S (urlCount p);
                   launched := launched p ++ [url];
                   sent := sent p |}
          end
      else forEach_line c rest p
  end.

(** What the caller and the process see of one request. *)
Record served := {
  answer : option res;          (* the response received *)
  raised : option error;        (* the exception that left the handler *)
  scheduled : list (list N)     (* the pipelines started *)
}.

Definition post_file (v : variant) (files : list upload)
    (outputFormat uuid : list N) (c : gmap (list N) (list N)) : served :=
  match files with
  | [] => {| answer := Some invalid_file; raised := None; scheduled := [] |}
  | file :: _ =>
      if negb (endsWith (lit ".txt") (originalname file)) then
        {| answer := Some invalid_file; raised := None; scheduled := [] |}
      else
        let lines := split_lines (text file) in
        let folderName := job_id uuid in
        let start := {| urlCount := 0; launched := []; sent := None |} in
        let '(p, thrown) := forEach_line c lines start in
        match thrown with
        | Some e =>
            {| answer := sent p; raised := Some e; scheduled := launched p |}
        | None =>
            let success :=
              {| status := 200;
                 body := Json
                   [("status", lit "success");
                    ("message", lit "Data scraped successfully.");
                    ("download_url", lit "/download/" ++ folderName);
                    ("Notice", notice v folderName);
                    ("prosessed_urls", dec (N.of_nat (urlCount p)))] |} in
            match send success p with
            | Ok p' =>
                {| answer := sent p'; raised := None; scheduled := launched p' |}
            | Throw e =>
                {| answer := sent p; raised := Some e; scheduled := launched p |}
            end
        end
  end.

(** The pipelines of a job, settled one after the other in the order
    in which they were started. *)
Fixpoint settle (v : variant) (urls : list (list N))
    (outputFormat folderName : list N) : M unit :=
  match urls with
  | [] => mret ()
  | url :: rest =>
      processUrl v url outputFormat folderName;;
      settle v rest outputFormat folderName
  end.

(** *** Discovery mode: [app.post('/bulk')] *)

Definition EXCLUDED_DOMAINS (v : variant) : list (list N) :=
  lit <$> (["google"; "youtube"; "wikipedia"; "cpanel"]%string
           ++ match v with
              | Original => []
              | Revised => ["facebook"; "twitter"]%string
              end).

Definition isValidURL (url : list N) : bool :=
  bool_decide (is_Some (hostname url)).

(** The test a link has to pass to be pushed on [searchResults]. *)
Definition accepted (v : variant) (topic actualUrl : list N) : bool :=
  isValidURL actualUrl
  && negb (existsb (λ domain, includes domain actualUrl) (EXCLUDED_DOMAINS v))
  && match v with
     | Original =>
         includes (lit "article") actualUrl
         || includes (lit "tutorial") actualUrl
         || includes (lit "guide") actualUrl
         || includes topic actualUrl
     | Revised => negb (endsWith (lit ".pdf") actualUrl)
     end.

(** The text cut out of a link:
    [link.href.substring(link.href.indexOf('http'), link.href.indexOf('&sa='))]. *)
Definition destination (href : list N) : list N :=
  substring (indexOf (lit "http") href) (indexOf (lit "&sa=") href) href.

(** [links.forEach(...)]: the pushes made before an exception stay. *)
Fixpoint scan_links (v : variant) (topic : list N) (links : list (list N))
    (searchResults : list (list N)) : list (list N) * option error :=
  match links with
  | [] => (searchResults, None)
  | href :: rest =>
      match decodeURIComponent
              (substring (indexOf (lit "http") href)
                         (indexOf (lit "&sa=") href) href) with
      | None => (searchResults, Some (Error (lit "URIError") (lit "URI malformed")))
      | Some actualUrl =>
          scan_links v topic rest
            (if accepted v topic actualUrl
             then searchResults ++ [actualUrl] else searchResults)
      end
  end.

(** [searchResults.length >= websitesNumber]; [parseInt] may give NaN,
    with which every comparison is false. *)
Definition reached (n : nat) (websitesNumber : option Z) : bool :=
  match websitesNumber with
  | Some k => (k <=? Z.of_nat n)%Z
  | None => false
  end.

(** [for (let page = 1; page <= 20; page++)] *)
Definition pages : list N := N.of_nat <$> seq 1 20.

Fixpoint search (v : variant) (topic : list N) (websitesNumber : option Z)
    (todo : list N) (searchResults : list (list N)) : M (list (list N)) :=
  match todo with
  | [] => mret searchResults
  | page :: later =>
      match encodeURIComponent topic with
      | None => throw (Error (lit "URIError") (lit "URI malformed"))
      | Some q =>
          let searchUrl :=
            lit "https://www.google.com/search?q=" ++ q
            ++ lit "&start=" ++ dec (page * 10) in
          r ← attempt (fetchWebPage v searchUrl ≫= await);
          let '(found, thrown) :=
            match r with
            | Ok htmlContent =>
                scan_links v topic (anchors htmlContent) searchResults
            | Throw e => (searchResults, Some e)
            end in
          match thrown with
          | None => mret ()
          | Some e =>
              let errorMessage :=
                lit "Error fetching or processing URL: " ++ searchUrl
                ++ lit ", " ++ show e in
              console_error errorMessage;;
              logEvent errorMessage
          end;;
          if reached (length found) websitesNumber then mret found
          else search v topic websitesNumber later found
      end
  end.

(** What the body of the second loop asks for: the next element
    ([continue], or the end of the body) or [break]. *)
Inductive flow := Next | Break.

Definition is_skip (htmlContent : value) : bool :=
  match htmlContent with
  | VString s => bool_decide (s = lit "skip")
  | VInherited _ => false
  end.

Definition processing_failed (resultUrl : list N) (e : error) : M unit :=
  console_error (lit "Error processing URL: " ++ resultUrl ++ lit ", " ++ show e).

(** The body of [for (const resultUrl of searchResults)] for a URL not
    in [processedUrls]; it returns [processedUrls] as it leaves it. *)
Definition visit (v : variant) (websitesNumber : option Z)
    (outputFormat folderName resultUrl : list N)
    (processedUrls : list (list N)) : M (list (list N) * flow) :=
  match v with
  | Original =>
      r ← attempt
            (htmlContent ← fetchWebPage v resultUrl ≫= await;
             let '(title, bodyContent) := scrapeData v htmlContent in
             let processedText := processData bodyContent in
             saveData v resultUrl title processedText folderName outputFormat);
      match r with
      | Throw e => processing_failed resultUrl e;; mret (processedUrls, Next)
      | Ok _ =>
          let processedUrls := processedUrls ++ [resultUrl] in
          if reached (length processedUrls) websitesNumber
          then mret (processedUrls, Break)
          else mret (processedUrls, Next)
      end
  | Revised =>
      if endsWith (lit ".pdf") resultUrl then
        console_log (lit "Skipped URL: " ++ resultUrl ++ lit " (PDF)");;
        mret (processedUrls, Next)
      else
        r ← attempt (fetchWebPage v resultUrl ≫= await);
        match r with
        | Throw e => processing_failed resultUrl e;; mret (processedUrls, Next)
        | Ok htmlContent =>
            if is_skip htmlContent then
              console_log (lit "Skipped URL: " ++ resultUrl
                           ++ lit " (Cloudflare challenge)");;
              mret (processedUrls, Next)
            else
              let '(title, bodyContent) := scrapeData v htmlContent in
              let processedText := processData bodyContent in
              r ← attempt (saveData v resultUrl title processedText
                                    folderName outputFormat);
              match r with
              | Throw e =>
                  processing_failed resultUrl e;; mret (processedUrls, Next)
              | Ok _ =>
                  let processedUrls := processedUrls ++ [resultUrl] in
                  let folderPath := dirname ++ lit "/" ++ folderName in
                  r ← attempt (readdirSync folderPath);
                  match r with
                  | Throw e =>
                      processing_failed resultUrl e;; mret (processedUrls, Next)
                  | Ok filesInFolder =>
                      if (20 <=? length filesInFolder)%nat
                      then mret (processedUrls, Break)
                      else mret (processedUrls, Next)
                  end
              end
        end
  end.

Fixpoint harvest (v : variant) (websitesNumber : option Z)
    (outputFormat folderName : list N) (searchResults : list (list N))
    (processedUrls : list (list N)) : M (list (list N)) :=
  match searchResults with
  | [] => mret processedUrls
  | resultUrl :: later =>
      if bool_decide (resultUrl ∈ processedUrls) then
        harvest v websitesNumber outputFormat folderName later processedUrls
      else
        step ← visit v websitesNumber outputFormat folderName resultUrl
                     processedUrls;
        match step with
        | (processedUrls, Break) => mret processedUrls
        | (processedUrls, Next) =>
            harvest v websitesNumber outputFormat folderName later processedUrls
        end
  end.

Definition post_bulk (v : variant) (topic outputFormat : list N)
    (websitesNumber : option Z) (uuid : list N) : M res :=
  r ← attempt
        (let folderName := job_id uuid ++ lit "_" ++ underscored topic in
         mkdirSync folderName;;
         searchResults ← search v topic websitesNumber pages [];
         harvest v websitesNumber outputFormat folderName searchResults [];;
         match v with
         | Original => mret ()
         | Revised => setTimeout folderName (minutes 3)
         end;;
         mret {| status := 200;
                 body := Json
                   [("status", lit "success");
                    ("message", lit "Data scraped successfully.");
                    ("download_url", lit "/download/" ++ folderName);
                    ("Notice", notice v folderName)] |});
  match r with
  | Ok response => mret response
  | Throw e =>
      let errorMessage := lit "Error in bulk route: " ++ show e in
      console_error errorMessage;;
      logEvent errorMessage;;
      mret {| status := 500;
              body := Plain (lit "An error occurred. Please check the logs for more details.") |}
  end.

(** *** Archive packager: [app.get('/download/:folderName')] *)

Definition not_found : res :=
  {| status := 404; body := Plain (lit "Data folder not found.") |}.

Definition unlinkSync (p : list N) : M unit := λ w,
  match fs w !! resolve p with
  | Some (File _) =>
      (Ok (), note (Removed (resolve p)) (set_fs (delete (resolve p)) w))
  | Some (Folder _) => (Throw (SystemError "EISDIR: illegal operation on a directory"), w)
  | None => (Throw (SystemError "ENOENT: no such file or directory"), w)
  end.

(** [transfer] is the error [res.download] hands to its callback, if
    the archive could not be delivered. *)
Definition download (v : variant) (folderName : list N)
    (transfer : option error) : M res :=
  let folderPath := folderName in
  let zipPath := folderPath ++ lit ".zip" in
  found ← inspect (λ w, existsSync folderPath w && isDirectory folderPath w);
  if found : bool then
    files ← inspect (λ w, match fs w !! resolve folderPath with
                          | Some (Folder es) => es
                          | _ => ∅
                          end);
    effect (λ w, note (Created (resolve zipPath))
                   (set_fs <[resolve zipPath := File (archive_of files)]> w));;
    deleteFolder folderPath;;
    match transfer with
    | None =>
        unlinkSync zipPath;;
        mret {| status := 200; body := Attachment (archive_of files) |}
    | Some err =>
        let errorMessage := lit "Error downloading file: " ++ show err in
        console_error errorMessage;;
        match v with
        | Original =>
            (* console.error(error): no such variable *)
            throw (Error (lit "ReferenceError") (lit "error is not defined"))
        | Revised =>
            logEvent errorMessage;;
            unlinkSync zipPath;;
            mret {| status := 500;
                    body := Plain (lit "An error occurred while downloading the file.") |}
        end
    end
  else mret not_found.

End Program.
End Harvester.

Import Harvester.

(** ** A concrete platform on which the model is run *)

Module Scenario.

Fixpoint upto (stop : N → bool) (s : list N) : list N :=
  match s with
  | [] => []
  | c :: r => if stop c then [] else c :: upto stop r
  end.

(** The host of an [http://] or [https://] URL; everything else is
    taken as unparsable. *)
Definition host_of (u : list N) : option (list N) :=
  let stop c := existsb (N.eqb c) [47; 63; 35; 58] in
  if startsWith (lit "https://") u then Some (upto stop (drop 8 u))
  else if startsWith (lit "http://") u then Some (upto stop (drop 7 u))
  else None.

(** A text without markup is parsed as the only child of the body. *)
Definition plain_document (html : value) : list dom :=
  match html with
  | VString s =>
      [Element (lit "html")
         [Element (lit "head") []; Element (lit "body") [Text s]]]
  | VInherited _ => []
  end.

(** A result page with two links, and the targets of its anchors. *)
Definition result_page : list N :=
  lit "<a href='/url?q=http://a.example/guide&sa=U'>A</a><a href='/url?q=http://b.example/guide&sa=U'>B</a>".

Definition result_links : list (list N) :=
  [lit "/url?q=http://a.example/guide&sa=U";
   lit "/url?q=http://b.example/guide&sa=U"].

Definition anchors_of (html : value) : list (list N) :=
  match html with
  | VString s => if bool_decide (s = result_page) then result_links else []
  | VInherited _ => []
  end.

(** [encodeURIComponent]: UTF-8 and percent escapes; a surrogate
    without its partner is a URIError. *)
Definition unreserved (c : N) : bool :=
  is_word c || existsb (N.eqb c) [45; 46; 33; 126; 42; 39; 40; 41].

Definition hex_upper (n : N) : N := if n <? 10 then 48 + n else 55 + n.

Definition percent (byte : N) : list N :=
  [37; hex_upper (byte / 16); hex_upper (byte mod 16)].

Definition utf8 (cp : N) : list N :=
  if cp <? 128 then [cp]
  else if cp <? 2048 then [192 + cp / 64; 128 + cp mod 64]
  else if cp <? 65536 then
    [224 + cp / 4096; 128 + (cp / 64) mod 64; 128 + cp mod 64]
  else
    [240 + cp / 262144; 128 + (cp / 4096) mod 64; 128 + (cp / 64) mod 64;
     128 + cp mod 64].

Fixpoint encode_units (s : list N) : option (list N) :=
  match s with
  | [] => Some []
  | c :: r =>
      if unreserved c then (c ::.) <$> encode_units r
      else if is_low_surrogate c then None
      else if is_high_surrogate c then
        match r with
        | d :: r' =>
            if is_low_surrogate d then
              let cp := 65536 + (c - 55296) * 1024 + (d - 56320) in
              ((utf8 cp ≫= percent) ++.) <$> encode_units r'
            else None
        | [] => None
        end
      else ((utf8 c ≫= percent) ++.) <$> encode_units r
  end.

(** [decodeURIComponent] on the strings without escapes, which decode
    to themselves; this platform is not run on others. *)
Definition decode_plain (s : list N) : option (list N) :=
  if existsb (N.eqb 37) s then None else Some s.

Definition listing (files : gmap (list N) (list N)) : list N :=
  mjoin ((λ f, f.1 ++ [10] ++ f.2 ++ [10]) <$> map_to_list files).

Definition refused : transport := ConnError (lit "connect ECONNREFUSED").

Definition unreachable : exchange :=
  {| via_https := refused; via_http := refused;
     via_request := Rejected (Error (lit "RequestError") (lit "connect ECONNREFUSED")) |}.

Definition answering (r : incoming) (body : option (list N)) : exchange :=
  {| via_https := Answer r; via_http := Answer r;
     via_request :=
       match body with
       | Some b => Resolved b
       | None =>
           Rejected (Error (lit "StatusCodeError")
                           (dec (statusCode r) ++ lit " - " ++ mjoin (chunks r)))
       end |}.

Definition challenge : incoming :=
  {| statusCode := 403; statusMessage := lit "Forbidden";
     server := Some (lit "cloudflare"); chunks := [lit "Just a moment..."] |}.

Definition forbidden : incoming :=
  {| statusCode := 403; statusMessage := lit "Forbidden";
     server := Some (lit "nginx"); chunks := [] |}.

Definition page (chunks : list (list N)) : incoming :=
  {| statusCode := 200; statusMessage := lit "OK";
     server := Some (lit "nginx"); chunks := chunks |}.

(** No host answers. *)
Definition offline (n : nat) (url : list N) : exchange := unreachable.

(** [a.example] sits behind a challenge page, [b.example] serves a text,
    [c.example] forbids access, the search engine serves [result_page]
    for every query. *)
Definition online (n : nat) (url : list N) : exchange :=
  if startsWith (lit "https://www.google.com/search?q=") url
  then answering (page [result_page]) (Some result_page)
  else if startsWith (lit "http://a.example") url
  then answering challenge None
  else if startsWith (lit "http://b.example") url
  then answering (page [lit "Hello,  "; lit "world"]) (Some (lit "Hello,  world"))
  else if startsWith (lit "http://c.example") url
  then answering forbidden None
  else unreachable.

Definition platform (network : nat → list N → exchange) : Platform :=
  {| dirname := lit "/srv/app";
     cwd := lit "/srv/app";
     hostname := host_of;
     parse_html := plain_document;
     anchors := anchors_of;
     encodeURIComponent := encode_units;
     decodeURIComponent := decode_plain;
     archive_of := listing;
     net := network |}.

Definition web : Platform := platform online.
Definition island : Platform := platform offline.

Definition fresh : world :=
  {| cache := ∅; fs := ∅; timers := []; journal := []; requests := 0 |}.

(** A world in which the page of [b.example] is still in the cache. *)
Definition remembered : world :=
  {| cache := {[ lit "http://b.example" := lit "Hello,  world" ]};
     fs := ∅; timers := []; journal := []; requests := 0 |}.

Definition uuid : list N := lit "123e4567-e89b-12d3-a456-426614174000".

(** Uploads: three lines of which one is blank, and 51 URLs. *)
Definition three_lines : upload :=
  {| originalname := lit "urls.txt";
     text := lit "http://a.example" ++ [10] ++ [10] ++ lit "http://b.example" |}.

Definition long_list : upload :=
  {| originalname := lit "urls.txt";
     text := mjoin (replicate 51 (lit "http://b.example/page" ++ [10])) |}.

End Scenario.

Import Scenario.

(** ** Properties of the text normalizer *)

Section NormalizerFacts.

#[local] Arguments http_at : simpl never.
#[local] Arguments pair_at : simpl never.
#[local] Arguments loose_space_at : simpl never.


Lemma http_at_inv s :
  http_at s = true →
  ∃ e r, s = 104 :: 116 :: 116 :: 112 :: e :: r ∧ is_space e = false.
Proof.
  destruct s as [|a [|b [|c [|d [|e r]]]]]; try done.
  unfold http_at. rewrite !andb_true_iff, !N.eqb_eq, negb_true_iff.
  intros [[[[-> ->] ->] ->] He]. eauto.
Qed.







Lemma free_of_cons pat c r :
  free_of pat (c :: r) = true ↔ pat (c :: r) = false ∧ free_of pat r = true.
Proof. cbn. by rewrite andb_true_iff, negb_true_iff. Qed.


(** *** [trim] *)


Lemma rtrim_prefix s : ∃ k, s = rtrim s ++ k.
Proof.
  induction s as [|c r [k IH]]; [by exists []|]. cbn [rtrim].
  destruct (rtrim r) as [|a o] eqn:E.
  - destruct (is_space c).
    + by exists (c :: r).
    + exists r. done.
  - exists k. cbn. f_equal. exact IH.
Qed.



Lemma ltrim_head s a o : ltrim s = a :: o → is_space a = false.
Proof.
  induction s as [|c r IH]; [done|]. cbn [ltrim].
  destruct (is_space c) eqn:E; [done|]. by intros [= <- _].
Qed.

Lemma rtrim_head c r a o : rtrim (c :: r) = a :: o → a = c.
Proof.
  cbn [rtrim]. destruct (rtrim r); [destruct (is_space c)|]; congruence.
Qed.


Lemma trim_head s a o : trim s = a :: o → is_space a = false.
Proof.
  unfold trim. destruct (ltrim s) as [|c r] eqn:E; [done|].
  intros ->%rtrim_head. by apply ltrim_head in E.
Qed.


(** *** [replace(/http\S+/g, '')] *)





Lemma strip_urls_id s : free_of http_at s = true → strip_urls false s = s.
Proof.
  induction s as [|c r IH]; [done|].
  intros [Hc Hr]%free_of_cons. cbn [strip_urls]. rewrite Hc. f_equal. auto.
Qed.


(** *** [replace(/\s+/g, ' ')] *)






Lemma squeeze_id b s :
  free_of loose_space_at s = true →
  (b = true → ∀ d r, s = d :: r → is_space d = false) →
  squeeze b s = s.
Proof.
  revert b. induction s as [|c r IH]; intros b; [done|].
  intros [Hc Hr]%free_of_cons Hb. cbn [squeeze].
  unfold loose_space_at in Hc.
  destruct (is_space c) eqn:E.
  - destruct b; [by rewrite (Hb eq_refl c r) in E|].
    cbn in Hc. apply orb_false_iff in Hc as [Hc Hd].
    apply negb_false_iff, N.eqb_eq in Hc as ->.
    f_equal. apply IH; [done|]. by intros _ d r' ->.
  - f_equal. by apply IH.
Qed.

(** *** [replace(/([^\w\s]|_)\1+/g, '')] *)

Lemma drop_runs_id run s :
  free_of pair_at s = true →
  (∀ c r, s = c :: r → run ≠ Some c) →
  drop_runs run s = s.
Proof.
  revert run. induction s as [|c r IH]; intros run; [done|].
  intros [Hc Hr]%free_of_cons Hrun. cbn [drop_runs].
  destruct (decide (run = Some c)) as [Heq|_]; [by destruct (Hrun c r)|].
  rewrite Hc. f_equal. by apply IH.
Qed.

End NormalizerFacts.


Example processData_sample :
  processData (lit "  see http://x.org/a?b  now!!!  ok_ ") = lit "see now ok_".
Proof. vm_compute. reflexivity. Qed.

(** ** Properties of the harvester *)

(** Running a computation one step at a time. *)
Lemma run_bind {A B} (m : M A) (k : A → M B) w :
  (m ≫= k) w = match m w with
               | (Ok a, w') => k a w'
               | (Throw e, w') => (Throw e, w')
               end.
Proof. done. Qed.

Lemma run_ret {A} (a : A) w : (mret a : M A) w = (Ok a, w).
Proof. done. Qed.

Lemma run_throw {A} e w : (throw e : M A) w = (Throw e, w).
Proof. done. Qed.

Lemma run_effect f w : effect f w = (Ok (), f w).
Proof. done. Qed.

Lemma run_inspect {A} (f : world → A) w : inspect f w = (Ok (f w), w).
Proof. done. Qed.

Lemma run_attempt {A} (m : M A) w :
  attempt m w = (Ok (m w).1, (m w).2).
Proof. unfold attempt. by destruct (m w). Qed.

Ltac run :=
  repeat (rewrite ?run_bind, ?run_ret, ?run_throw, ?run_effect, ?run_inspect;
          cbv beta iota).

Section HarvesterFacts.
Context `{!Platform}.

Lemma in_cache_hit (url s : list N) (c : gmap (list N) (list N)) :
  c !! url = Some s → in_cache url c = Some (VString s).
Proof. unfold in_cache. by intros ->. Qed.

Lemma fetch_cached v url w cached :
  in_cache url (cache w) = Some cached →
  fetchWebPage v url w = (Ok (Raw cached), w).
Proof.
  intros Hc. unfold fetchWebPage. run. by rewrite Hc.
Qed.

(** C10. On a cache hit [fetchWebPage] returns the cached string itself,
    not a promise; the pipeline of the explicit-list mode, which calls
    [.then] on that result, then raises a TypeError and leaves the world
    as it was: nothing is fetched, written or scheduled for that URL. *)
Theorem cached_url_breaks_processUrl v url s outputFormat folderName w :
  cache w !! url = Some s →
  fetchWebPage v url w = (Ok (Raw (VString s)), w)
  ∧ processUrl v url outputFormat folderName w = (Throw not_thenable, w).
Proof.
  intros Hs%in_cache_hit. split; [by apply fetch_cached|].
  unfold processUrl. run. by rewrite (fetch_cached _ _ _ _ Hs).
Qed.

(** The call [processUrl(url, ..)] made by the explicit-list handler
    throws exactly when [url in cache]; otherwise the pipeline runs to
    its end, whatever the fetch and the save do. *)
Lemma processUrl_call v url outputFormat folderName w :
  match in_cache url (cache w) with
  | Some _ =>
      processUrl v url outputFormat folderName w = (Throw not_thenable, w)
  | None => ∃ w', processUrl v url outputFormat folderName w = (Ok (), w')
  end.
Proof.
  destruct (in_cache url (cache w)) as [cached|] eqn:Hc.
  { unfold processUrl. run. by rewrite (fetch_cached _ _ _ _ Hc). }
  unfold processUrl. run.
  destruct (fetchWebPage v url w) as [[[cached|o]|e] w1] eqn:Hf; run.
  - revert Hf. unfold fetchWebPage, on_response, console_error, logEvent.
    run. rewrite Hc. run.
    destruct v; run; repeat case_match; run; by intros [= <-].
  - rewrite run_attempt.
    match goal with
    | |- context [?m w1] =>
        lazymatch m with
        | match o with _ => _ end => destruct (m w1) as [[[]|e] w2]
        end
    end; cbn [fst snd]; unfold console_error, logEvent; run; eauto.
  - revert Hf. unfold fetchWebPage, on_response, console_error, logEvent.
    run. rewrite Hc. run.
    destruct v; run; repeat case_match; run; by intros [= <-].
Qed.

(** C9. A download for a name that is no directory (nothing there, or
    a plain file) answers 404 and changes nothing: no archive file is
    created. *)
Theorem download_not_found v folderName transfer w :
  existsSync folderName w && isDirectory folderName w = false →
  download v folderName transfer w = (Ok not_found, w).
Proof.
  intros Hd. unfold download. run. by rewrite Hd.
Qed.

Lemma saveData_runs v url title processedText folderName outputFormat w domain :
  hostname url = Some domain →
  (∀ data, fs w !! resolve (dirname ++ lit "/" ++ folderName) ≠ Some (File data)) →
  ∃ w' files,
    saveData v url title processedText folderName outputFormat w = (Ok (), w')
    ∧ fs w' !! resolve (dirname ++ lit "/" ++ folderName) = Some (Folder files)
    ∧ files !! (domain ++ lit "." ++ outputFormat)
      = Some (serialize title processedText outputFormat)
    ∧ cache w' = delete url (cache w)
    ∧ timers w' = timers w ++ [{| delay := save_ttl v;
                                  target := resolve (dirname ++ lit "/" ++ folderName) |}].
Proof.
  intros Hd Hf. unfold saveData. rewrite Hd.
  set (folderPath := dirname ++ lit "/" ++ folderName) in *.
  run. unfold existsSync.
  destruct (fs w !! resolve folderPath) as [[data|files]|] eqn:E.
  - by destruct (Hf data).
  - rewrite bool_decide_eq_true_2 by eauto. run.
    unfold writeFileSync. rewrite E. run. unfold setTimeout. run.
    eexists _, _. split; [done|]. cbn. rewrite lookup_insert_eq.
    split; [done|]. by rewrite lookup_insert_eq.
  - rewrite bool_decide_eq_false_2 by (by intros [? ?]). run.
    unfold mkdirSync. rewrite E. run.
    unfold writeFileSync. cbn [fs note set_fs]. rewrite lookup_insert_eq. run.
    unfold setTimeout. run.
    eexists _, _. split; [done|]. cbn. rewrite lookup_insert_eq.
    split; [done|]. by rewrite lookup_insert_eq.
Qed.

(** C3. A save that goes through leaves, in the session folder, a file
    named after the host whose content is the JSON text of
    [{ title, content }] when the format is [json] and the normalized
    text itself for every other format. *)
Theorem saveData_content v url title processedText folderName outputFormat w domain :
  hostname url = Some domain →
  (∀ data, fs w !! resolve (dirname ++ lit "/" ++ folderName) ≠ Some (File data)) →
  ∃ w' files,
    saveData v url title processedText folderName outputFormat w = (Ok (), w')
    ∧ fs w' !! resolve (dirname ++ lit "/" ++ folderName) = Some (Folder files)
    ∧ (outputFormat = lit "json" →
       files !! (domain ++ lit ".json")
       = Some (JSON_title_content title processedText))
    ∧ (outputFormat ≠ lit "json" →
       files !! (domain ++ lit "." ++ outputFormat) = Some processedText).
Proof.
  intros Hd Hf.
  destruct (saveData_runs v url title processedText folderName outputFormat
              w domain Hd Hf) as (w' & files & Hrun & Hfs & Hfile & _).
  exists w', files. split; [done|]. split; [done|].
  unfold serialize in Hfile. split.
  - intros ->. by rewrite decide_True in Hfile.
  - intros Hne. by rewrite decide_False in Hfile.
Qed.

Lemma fetch_delivered url w response :
  in_cache url (cache w) = None →
  delivered url (net (requests w) url) response →
  fetchWebPage Revised url w
  = on_response url response (note (Requested url) (count_request w)).
Proof.
  intros Hc Hd. unfold fetchWebPage. run. rewrite Hc. run.
  destruct Hd as [Hs Hr | msg Hs He Hr | Hs Hr]; rewrite Hs;
    [by rewrite Hr | by rewrite He, Hr | by rewrite Hr].
Qed.

Lemma on_response_challenge url response w :
  statusCode response = 403 → server response = Some (lit "cloudflare") →
  on_response url response w = (Ok (Promise (Resolved (lit "skip"))), w).
Proof.
  intros Hst Hsv. unfold on_response. rewrite Hst, Hsv. cbn.
  by rewrite bool_decide_eq_true_2.
Qed.



(** *** Explicit-list mode *)

Lemma forEach_line_spec c lines p p' thrown :
  forEach_line c lines p = (p', thrown) →
  (sent p = None ∨ sent p = Some too_many) →
  urlCount p = length (launched p) →
  (sent p' = None ∨ sent p' = Some too_many)
  ∧ (∀ r, sent p = Some r → sent p' = Some r)
  ∧ (∃ k, launched p' = launched p ++ k
          ∧ k `prefix_of` filter (λ url, trim url ≠ []) lines)
  ∧ ((50 ≤ length (launched p))%nat → launched p' = launched p)
  ∧ ((length (launched p) ≤ 50)%nat → (length (launched p') ≤ 50)%nat)
  ∧ ((length (launched p) ≤ 50)%nat → length (launched p') = 50%nat →
     (50 < length (launched p)
           + length (filter (λ url, trim url ≠ []) lines))%nat →
     sent p' = Some too_many).
Proof.
  revert p. induction lines as [|url rest IH]; intros p Hrun Hsent Hcount.
  { injection Hrun as <- <-. cbn. split_and!; try done; try lia.
    exists []. by rewrite app_nil_r. }
  cbn [forEach_line] in Hrun. rewrite filter_cons.
  destruct (decide (trim url ≠ [])) as [Hurl|Hurl].
  2:{ rewrite bool_decide_eq_false_2 in Hrun by done. by apply IH. }
  rewrite bool_decide_eq_true_2 in Hrun by done.
  destruct (50 <=? urlCount p)%nat eqn:Hcap.
  - apply Nat.leb_le in Hcap. rewrite Hcount in Hcap.
    unfold send in Hrun. destruct (sent p) as [r0|] eqn:Hs.
    + injection Hrun as <- <-. destruct Hsent as [?|Hsent]; [done|].
      split_and!; try done; try lia.
      * right. congruence.
      * congruence.
      * exists []. rewrite app_nil_r. split; [done|]. apply prefix_nil.
      * intros _ _ _. congruence.
    + apply IH in Hrun as (I1 & I2 & (k & I3 & I3') & I4 & I5 & I6);
        cbn [sent launched urlCount] in *; [|by right|done].
      specialize (I4 Hcap).
      split_and!; try done.
      * rewrite I4. exists []. rewrite app_nil_r. split; [done|].
        apply prefix_nil.
      * intros. by apply I2.
  - apply Nat.leb_gt in Hcap. rewrite Hcount in Hcap.
    destruct (in_cache url c).
    + injection Hrun as <- <-. split_and!; try done; try lia.
      exists []. rewrite app_nil_r. split; [done|]. apply prefix_nil.
    + apply IH in Hrun as (I1 & I2 & (k & I3 & I3') & I4 & I5 & I6);
        cbn [sent launched urlCount] in *;
        [|done|by rewrite length_app, Hcount; cbn; lia].
      rewrite length_app in *. cbn [length] in *.
      split_and!; try done; try lia.
      * exists (url :: k). rewrite I3, <- app_assoc. split; [done|].
        by apply prefix_cons.
      * intros _ E50 Hmore. apply I6; [lia|done|lia].
Qed.

(** C5. The explicit-list handler starts at most 50 pipelines,
    whatever it is sent.  For an uploaded .txt file the pipelines
    started are an initial part of the non-blank lines, in order; and
    once 50 have been started and more non-blank lines remain, the
    caller receives the 400 response that says that only 50 URLs are
    allowed. *)
Theorem post_file_cap v files outputFormat uuid c :
  (length (scheduled (post_file v files outputFormat uuid c)) ≤ 50)%nat
  ∧ ∀ file others,
      files = file :: others →
      endsWith (lit ".txt") (originalname file) = true →
      let urls := filter (λ url, trim url ≠ []) (split_lines (text file)) in
      let r := post_file v files outputFormat uuid c in
      scheduled r `prefix_of` urls
      ∧ (length (scheduled r) = 50%nat → (50 < length urls)%nat →
         answer r = Some too_many).
Proof.
  unfold post_file. destruct files as [|file others]; [cbn; split; [lia|done]|].
  destruct (endsWith (lit ".txt") (originalname file)) eqn:Htxt; cbn [negb].
  2:{ cbn. split; [lia|]. intros ?? [= <- <-]. congruence. }
  destruct (forEach_line c (split_lines (text file)) _) as [p thrown] eqn:Hrun.
  apply forEach_line_spec in Hrun
    as (I1 & I2 & (k & I3 & I3') & I4 & I5 & I6); cbn in *; [|by left|done].
  subst k.
  assert (Hout :
    ∀ r, r = match thrown with
             | Some e => {| answer := sent p; raised := Some e;
                            scheduled := launched p |}
             | None =>
                 match send {| status := 200;
                               body := Json
                   [("status", lit "success");
                    ("message", lit "Data scraped successfully.");
                    ("download_url", lit "/download/" ++ job_id uuid);
                    ("Notice", notice v (job_id uuid));
                    ("prosessed_urls", dec (N.of_nat (urlCount p)))] |} p with
                 | Ok p' => {| answer := sent p'; raised := None;
                               scheduled := launched p' |}
                 | Throw e => {| answer := sent p; raised := Some e;
                                 scheduled := launched p |}
                 end
             end →
         scheduled r = launched p
         ∧ (sent p = Some too_many → answer r = Some too_many)).
  { intros r ->. destruct thrown; [done|]. unfold send.
    destruct (sent p); [done|]. cbn. split; [done|]. done. }
  destruct (Hout _ eq_refl) as [Hs Ha]. split.
  - rewrite Hs. apply I5. lia.
  - intros ?? [= <- <-] _. cbv zeta. rewrite Hs. split; [done|].
    intros E50 Hmore. apply Ha, I6; [lia|done|lia].
Qed.

(** *** Discovery mode: the search *)

Lemma scan_links_app v topic links before :
  (scan_links v topic links before).1
  = before ++ (scan_links v topic links []).1.
Proof.
  revert before. induction links as [|href rest IH]; intros before; cbn.
  { by rewrite app_nil_r. }
  destruct (decodeURIComponent _) as [actualUrl|]; cbn.
  { destruct (accepted v topic actualUrl).
    - rewrite (IH (before ++ _)), (IH [_]). by rewrite <- app_assoc.
    - apply IH. }
  by rewrite app_nil_r.
Qed.

Lemma fetch_requests v url w r w' :
  fetchWebPage v url w = (r, w') →
  (requests w' ≤ S (requests w))%nat ∧ saved_urls w' = saved_urls w.
Proof.
  unfold fetchWebPage, on_response, console_error, logEvent. run.
  destruct (in_cache url (cache w)); run; [intros [= <- <-]; split; [lia|done]|].
  destruct v; run.
  - destruct (via_request _); run; intros [= <- <-]; split; cbn; done || lia.
  - repeat case_match; run; intros [= <- <-]; split; cbn; done || lia.
Qed.

Lemma await_world f w r w' : await f w = (r, w') → w' = w.
Proof. destruct f as [|[]]; cbn; by intros [= _ <-]. Qed.

Lemma fetch_await_requests v url w r w' :
  (fetchWebPage v url ≫= await) w = (r, w') →
  (requests w' ≤ S (requests w))%nat ∧ saved_urls w' = saved_urls w.
Proof.
  run. destruct (fetchWebPage v url w) as [[f|e] w1] eqn:Hf.
  - intros ->%await_world. by apply fetch_requests in Hf.
  - intros [= <- <-]. by apply fetch_requests in Hf.
Qed.

(** One turn of the loop over the result pages. *)
Lemma search_turn v topic websitesNumber page later searchResults w r w' :
  search v topic websitesNumber (page :: later) searchResults w = (r, w') →
  (∃ e, r = Throw e ∧ w' = w)
  ∨ ∃ links found w1,
      found = searchResults ++ (scan_links v topic links []).1
      ∧ (requests w1 ≤ S (requests w))%nat
      ∧ saved_urls w1 = saved_urls w
      ∧ if reached (length found) websitesNumber
        then r = Ok found ∧ w' = w1
        else search v topic websitesNumber later found w1 = (r, w').
Proof.
  cbn [search]. destruct (encodeURIComponent topic) as [q|]; run.
  2:{ intros [= <- <-]. left. eauto. }
  rewrite run_attempt.
  match goal with
  | |- context [(fetchWebPage v ?u ≫= await) w] =>
      destruct ((fetchWebPage v u ≫= await) w) as [r1 w1] eqn:Hf
  end.
  apply fetch_await_requests in Hf as [Hreq Hsaved]. cbn [fst snd]. run.
  intros Hrun. right. destruct r1 as [html|e].
  - destruct (scan_links v topic (anchors html) searchResults)
      as [found thrown] eqn:Hscan.
    exists (anchors html), found.
    rewrite <- scan_links_app, Hscan. cbn [fst].
    revert Hrun. destruct thrown; unfold console_error, logEvent; run;
      (destruct (reached (length found) websitesNumber); run;
       [intros [= <- <-]|intros Hrun]);
      eexists; (split_and!; [done|..|done]); done.
  - exists [], searchResults. cbn [scan_links fst]. rewrite app_nil_r.
    revert Hrun. unfold console_error, logEvent; run;
      (destruct (reached (length searchResults) websitesNumber); run;
       [intros [= <- <-]|intros Hrun]);
      eexists; (split_and!; [done|..|done]); done.
Qed.

Lemma search_spec v topic websitesNumber todo searchResults w r w' :
  search v topic websitesNumber todo searchResults w = (r, w') →
  (requests w' ≤ requests w + length todo)%nat
  ∧ saved_urls w' = saved_urls w
  ∧ ∀ found, r = Ok found → todo ≠ [] →
      ∃ before links,
        found = before ++ (scan_links v topic links []).1
        ∧ (before = searchResults
           ∨ reached (length before) websitesNumber = false).
Proof.
  revert searchResults w.
  induction todo as [|page later IH]; intros searchResults w.
  { cbn. intros [= <- <-]. split_and!; [lia|done|done]. }
  intros [(e & -> & ->)|(links & found1 & w1 & Hfound1 & Hreq & Hsaved & Hrun)]
    %search_turn.
  { split_and!; [lia|done|done]. }
  destruct (reached (length found1) websitesNumber) eqn:Hreached.
  - destruct Hrun as [-> ->]. split_and!; [cbn; lia|done|].
    intros found [= <-] _. eauto.
  - destruct later as [|page' later'].
    { injection Hrun as <- <-. split_and!; [cbn; lia|done|].
      intros found [= <-] _. eauto. }
    apply IH in Hrun as (Hreq' & Hsaved' & Hfound).
    split_and!; [cbn in *; lia|congruence|].
    intros found Hr _.
    destruct (Hfound found Hr) as (before & links' & Hb & Hc); [done|].
    exists before, links'. split; [done|].
    destruct Hc as [->|Hc]; by right.
Qed.


(** *** Discovery mode: the harvest *)

Lemma mkdirSync_keeps p w r w' :
  mkdirSync p w = (r, w') →
  saved_urls w' = saved_urls w ∧ timers w' = timers w.
Proof.
  unfold mkdirSync. repeat case_match; by intros [= <- <-].
Qed.

Lemma saveData_saved v url title processedText folderName outputFormat w r w' :
  saveData v url title processedText folderName outputFormat w = (r, w') →
  (r = Ok () ∧ saved_urls w' = url :: saved_urls w)
  ∨ (∃ e, r = Throw e ∧ saved_urls w' = saved_urls w).
Proof.
  unfold saveData, setTimeout. destruct (hostname url) as [domain|]; run;
    [|intros [= <- <-]; eauto].
  set (folderPath := dirname ++ lit "/" ++ folderName).
  destruct (existsSync folderPath w); run.
  - unfold writeFileSync.
    destruct (fs w !! resolve folderPath) as [[data|files]|]; run;
      intros [= <- <-]; eauto.
  - unfold mkdirSync.
    destruct (fs w !! resolve folderPath) as [[data|files]|]; run;
      try (intros [= <- <-]; by eauto); unfold writeFileSync.
    + destruct (fs w !! resolve folderPath) as [[data'|files']|]; run;
        intros [= <- <-]; eauto.
    + cbn [fs note set_fs]. rewrite lookup_insert_eq. run.
      intros [= <- <-]; eauto.
Qed.

Lemma readdirSync_world p w r w' : readdirSync p w = (r, w') → w' = w.
Proof. unfold readdirSync. repeat case_match; by intros [= _ <-]. Qed.

Lemma visit_saved v websitesNumber outputFormat folderName resultUrl
    processedUrls w r w' :
  visit v websitesNumber outputFormat folderName resultUrl processedUrls w
  = (r, w') →
  (r = Ok (processedUrls, Next) ∧ saved_urls w' = saved_urls w)
  ∨ (∃ next, r = Ok (processedUrls ++ [resultUrl], next)
             ∧ saved_urls w' = resultUrl :: saved_urls w).
Proof.
  unfold visit, processing_failed, console_error, console_log.
  destruct v.
  - run. rewrite run_attempt. run.
    destruct (fetchWebPage Original resultUrl w) as [[f|e] w1] eqn:Hf;
      apply fetch_requests in Hf as [_ Hf]; cbn [fst snd]; run.
    2: intros [= <- <-]; by left.
    destruct (await f w1) as [[html|e] w2] eqn:Ha;
      apply await_world in Ha as ->; cbn [fst snd]; run.
    2: intros [= <- <-]; by left.
    destruct (scrapeData Original html) as [title bodyContent].
    destruct (saveData _ _ _ _ _ _ w1) as [r2 w2] eqn:Hs.
    apply saveData_saved in Hs as [[-> Hs]|(e & -> & Hs)]; run.
    + destruct (reached _ _); run; intros [= <- <-]; right;
        eexists; (split; [done|by rewrite Hs, Hf]).
    + intros [= <- <-]. left. split; [done|by rewrite <- Hf].
  - destruct (endsWith _ resultUrl); run; [intros [= <- <-]; by left|].
    rewrite run_attempt. run.
    destruct (fetchWebPage Revised resultUrl w) as [[f|e] w1] eqn:Hf;
      apply fetch_requests in Hf as [_ Hf]; cbn [fst snd]; run;
      [|intros [= <- <-]; by left].
    destruct (await f w1) as [[html|e] w2] eqn:Ha;
      apply await_world in Ha as ->; cbn [fst snd]; run;
      [|intros [= <- <-]; by left].
    destruct (is_skip html); run; [intros [= <- <-]; by left|].
    destruct (scrapeData Revised html) as [title bodyContent]. run.
    rewrite run_attempt.
    destruct (saveData _ _ _ _ _ _ w1) as [r2 w2] eqn:Hs.
    apply saveData_saved in Hs as [[-> Hs]|(e & -> & Hs)]; cbn [fst snd]; run.
    + rewrite run_attempt.
      destruct (readdirSync _ w2) as [[filesInFolder|e] w3] eqn:Hr;
        apply readdirSync_world in Hr as ->; cbn [fst snd]; run.
      * destruct (20 <=? length filesInFolder)%nat; run; intros [= <- <-];
          right; eexists; (split; [done|by rewrite Hs, Hf]).
      * intros [= <- <-]. right. eexists. split; [done|].
        cbn. by rewrite <- Hf, <- Hs.
    + intros [= <- <-]. left. split; [done|by rewrite <- Hf].
Qed.

Lemma harvest_saved v websitesNumber outputFormat folderName searchResults
    processedUrls w r w' :
  harvest v websitesNumber outputFormat folderName searchResults processedUrls w
  = (r, w') →
  NoDup processedUrls →
  ∃ new, r = Ok (processedUrls ++ new)
         ∧ saved_urls w' = reverse new ++ saved_urls w
         ∧ NoDup (processedUrls ++ new).
Proof.
  revert processedUrls w.
  induction searchResults as [|resultUrl later IH]; intros processedUrls w.
  { cbn. intros [= <- <-] Hnd. exists []. by rewrite app_nil_r. }
  cbn [harvest]. case_bool_decide as Hin; [apply IH|]. run.
  destruct (visit _ _ _ _ resultUrl processedUrls w) as [r1 w1] eqn:Hv.
  apply visit_saved in Hv as [[-> Hs]|(next & -> & Hs)]; run.
  - intros Hrun Hnd. apply IH in Hrun as (new & -> & Hs' & Hnd'); [|done].
    exists new. split_and!; [done|congruence|done].
  - intros Hrun Hnd.
    assert (Hnd1 : NoDup (processedUrls ++ [resultUrl])).
    { apply NoDup_app. split_and!; [done| |apply NoDup_singleton].
      intros x Hx ->%list_elem_of_singleton. done. }
    destruct next.
    + apply IH in Hrun as (new & -> & Hs' & Hnd'); [|done].
      exists (resultUrl :: new). rewrite reverse_cons, <- !app_assoc in *.
      split_and!; [done| |done]. rewrite Hs', Hs. done.
    + revert Hrun. run. intros [= <- <-]. exists [resultUrl].
      split_and!; done.
Qed.


(** *** The challenge sentinel in the two modes *)

(** In the explicit-list mode of the revised program the sentinel is
    taken for a page: it is parsed, normalized and saved. *)
Lemma processUrl_saves_challenge url outputFormat folderName w response domain :
  in_cache url (cache w) = None →
  delivered url (net (requests w) url) response →
  statusCode response = 403 → server response = Some (lit "cloudflare") →
  hostname url = Some domain →
  (∀ data, fs w !! resolve (dirname ++ lit "/" ++ folderName) ≠ Some (File data)) →
  ∃ w' files,
    processUrl Revised url outputFormat folderName w = (Ok (), w')
    ∧ saved_urls w' = url :: saved_urls w
    ∧ fs w' !! resolve (dirname ++ lit "/" ++ folderName) = Some (Folder files)
    ∧ is_Some (files !! (domain ++ lit "." ++ outputFormat)).
Proof.
  intros Hc Hd Hst Hsv Hh Hf. unfold processUrl. run.
  rewrite (fetch_delivered _ _ _ Hc Hd), on_response_challenge by done.
  run. rewrite run_attempt.
  destruct (scrapeData Revised (VString (lit "skip"))) as [title bodyContent].
  set (w1 := note (Requested url) (count_request w)).
  destruct (saveData_runs Revised url title (processData bodyContent)
              folderName outputFormat w1 domain Hh Hf)
    as (w' & files & Hrun & Hfs & Hfile & _).
  rewrite Hrun. cbn [fst snd]. run. exists w', files.
  apply saveData_saved in Hrun as [[_ Hs]|(e & [=] & _)].
  split_and!; [done|done|done|by eexists].
Qed.

(** In the discovery mode the same URL is passed over: apart from the
    request and one console line the world is as before. *)
Lemma visit_skips_challenge websitesNumber outputFormat folderName url
    processedUrls w response :
  in_cache url (cache w) = None →
  delivered url (net (requests w) url) response →
  statusCode response = 403 → server response = Some (lit "cloudflare") →
  endsWith (lit ".pdf") url = false →
  visit Revised websitesNumber outputFormat folderName url processedUrls w
  = (Ok (processedUrls, Next),
     note (ConsoleLog (lit "Skipped URL: " ++ url
                       ++ lit " (Cloudflare challenge)"))
          (note (Requested url) (count_request w))).
Proof.
  intros Hc Hd Hst Hsv Hpdf. unfold visit. rewrite Hpdf. run.
  rewrite run_attempt. run.
  rewrite (fetch_delivered _ _ _ Hc Hd), on_response_challenge by done.
  cbn [await]. run. cbn [fst snd]. run.
  unfold is_skip. rewrite bool_decide_eq_true_2 by done.
  unfold console_log. by run.
Qed.

(** *** Scheduled deletions *)

Lemma fire_deletes t w :
  ∃ w', fire t w = (Ok (), w') ∧ fs w' !! resolve (target t) = None.
Proof.
  unfold fire, deleteFolder, existsSync. case_bool_decide as He.
  - eexists. split; [done|]. cbn. apply lookup_delete_eq.
  - exists w. split; [done|]. by apply eq_None_not_Some.
Qed.

(** The revised discovery job sets a timer for its folder once it has
    responded. *)
Lemma revised_bulk_sets_timer topic outputFormat websitesNumber uuid w response w' :
  post_bulk Revised topic outputFormat websitesNumber uuid w = (Ok response, w') →
  status response = 200 →
  ∃ earlier,
    timers w' = earlier ++ [{| delay := minutes 3;
                               target := resolve (job_id uuid ++ lit "_"
                                                  ++ underscored topic) |}].
Proof.
  unfold post_bulk, console_error, logEvent, setTimeout. run.
  rewrite run_attempt. run.
  destruct (mkdirSync _ w) as [[[]|e] w1]; cbn [fst snd]; run;
    [|by intros [= <- <-]].
  destruct (search Revised topic websitesNumber pages [] w1)
    as [[searchResults|e] w2]; cbn [fst snd]; run; [|by intros [= <- <-]].
  destruct (harvest Revised websitesNumber outputFormat _ searchResults [] w2)
    as [[processedUrls|e] w3]; cbn [fst snd]; run; [|by intros [= <- <-]].
  intros [= <- <-] _. by eexists.
Qed.

End HarvesterFacts.

(** ** The program on the concrete platform *)




(** In the discovery mode of the same program the same URL leaves no
    artifact. *)
Example bulk_mode_skips_challenge_page :
  let w' := (post_bulk (H := web) Revised (lit "x") (lit "txt") (Some 1%Z)
               uuid fresh).2 in
  fs w' !! lit "/srv/app/123e4567e8_x"
  = Some (Folder {[ lit "b.example.txt" := lit "Hello, world" ]})
  ∧ saved_urls w' = [lit "http://b.example/guide"].
Proof. vm_compute. done. Qed.

Lemma saveData_content_witness :
  ∃ w' files,
    saveData (H := web) Revised (lit "http://b.example/guide") (lit "T")
      (lit "a b") (lit "job1") (lit "json") fresh = (Ok (), w')
    ∧ fs w' !! resolve (H := web) (@dirname web ++ lit "/" ++ lit "job1")
      = Some (Folder files)
    ∧ (lit "json" = lit "json" →
       files !! (lit "b.example" ++ lit ".json")
       = Some (JSON_title_content (lit "T") (lit "a b")))
    ∧ (lit "json" ≠ lit "json" →
       files !! (lit "b.example" ++ lit "." ++ lit "json") = Some (lit "a b")).
Proof.
  apply (saveData_content (H := web)).
  - vm_compute. reflexivity.
  - intros data. vm_compute. discriminate.
Defined.


(** The first end-to-end scenario of the specification: three lines,
    one of them blank, start two pipelines. *)
Example three_lines_two_pipelines :
  post_file Revised [three_lines] (lit "txt") uuid ∅
  = {| answer := Some {| status := 200;
                         body := Json
                           [("status", lit "success");
                            ("message", lit "Data scraped successfully.");
                            ("download_url", lit "/download/123e4567e8");
                            ("Notice", notice Revised (lit "123e4567e8"));
                            ("prosessed_urls", lit "2")] |};
       raised := None;
       scheduled := [lit "http://a.example"; lit "http://b.example"] |}.
Proof. vm_compute. reflexivity. Qed.

Lemma post_file_cap_witness :
  let r := post_file Revised [long_list] (lit "txt") uuid ∅ in
  (length (scheduled r) ≤ 50)%nat
  ∧ scheduled r
    `prefix_of` filter (λ url, trim url ≠ []) (split_lines (text long_list))
  ∧ answer r = Some too_many.
Proof.
  destruct (post_file_cap Revised [long_list] (lit "txt") uuid ∅)
    as [Hcap Hrest].
  destruct (Hrest long_list [] eq_refl) as [Hprefix Hanswer].
  { vm_compute. reflexivity. }
  split; [exact Hcap|]. split; [exact Hprefix|].
  apply Hanswer.
  - vm_compute. reflexivity.
  - vm_compute. lia.
Defined.




(** C8 (code defect). In the original program a discovery job that
    saves nothing leaves its folder behind with no deletion scheduled,
    while its response announces the deletion. *)
Theorem bulk_folder_without_timer :
  let '(r, w') := post_bulk (H := island) Original (lit "x") (lit "txt")
                    (Some 1%Z) uuid fresh in
  r = Ok {| status := 200;
             body := Json
               [("status", lit "success");
                ("message", lit "Data scraped successfully.");
                ("download_url", lit "/download/123e4567e8_x");
                ("Notice", lit "Data folder 123e4567e8_x will be deleted after 3 minutes starting from now")] |}
  ∧ isDirectory (H := island) (lit "123e4567e8_x") w' = true
  ∧ timers w' = [].
Proof. vm_compute. done. Qed.

Lemma download_not_found_witness :
  existsSync (H := web) (lit "nojob") fresh
  && isDirectory (H := web) (lit "nojob") fresh = false
  ∧ download (H := web) Revised (lit "nojob") None fresh = (Ok not_found, fresh).
Proof.
  split; [vm_compute; reflexivity|].
  apply download_not_found. vm_compute. reflexivity.
Defined.

Lemma cached_url_breaks_processUrl_witness :
  cache remembered !! lit "http://b.example" = Some (lit "Hello,  world")
  ∧ fetchWebPage (H := web) Revised (lit "http://b.example") remembered
    = (Ok (Raw (VString (lit "Hello,  world"))), remembered)
  ∧ processUrl (H := web) Revised (lit "http://b.example") (lit "txt")
      (lit "job1") remembered
    = (Throw not_thenable, remembered).
Proof.
  split; [vm_compute; reflexivity|].
  apply cached_url_breaks_processUrl. vm_compute. reflexivity.
Defined.

(** The revised program has the same defect on another path: a topic
    that [encodeURIComponent] rejects ends the job after the folder has
    been made and before the timer is set. *)
Example revised_bulk_folder_without_timer :
  let '(r, w') := post_bulk (H := web) Revised [55357] (lit "txt")
                    (Some 1%Z) uuid fresh in
  r = Ok {| status := 500;
            body := Plain (lit "An error occurred. Please check the logs for more details.") |}
  ∧ isDirectory (H := web) (lit "123e4567e8_" ++ [55357]) w' = true
  ∧ timers w' = [].
Proof. vm_compute. done. Qed.

(** A download of a saved job: the archive is sent, and neither the
    folder nor the archive file remains. *)
Example download_round_trip :
  let w1 := (processUrl (H := web) Revised (lit "http://b.example")
               (lit "txt") (lit "job7") fresh).2 in
  let '(r, w2) := download (H := web) Revised (lit "job7") None w1 in
  r = Ok {| status := 200;
            body := Attachment (lit "b.example.txt" ++ [10]
                                ++ lit "Hello, world" ++ [10]) |}
  ∧ fs w2 = ∅.
Proof. vm_compute. done. Qed.

(** ** Further properties of the text normalizer *)

Section NormalizerShape.

#[local] Arguments http_at : simpl never.
#[local] Arguments pair_at : simpl never.

Lemma Forall_of_sublist {A} (P : A → Prop) (l k : list A) :
  l `sublist_of` k → Forall P k → Forall P l.
Proof.
  induction 1 as [|x l k _ IH|x l k _ IH]; [done| |].
  - intros [? ?]%Forall_cons. constructor; auto.
  - intros [? ?]%Forall_cons. auto.
Qed.

Lemma ltrim_sublist s : ltrim s `sublist_of` s.
Proof.
  induction s as [|c r IH]; [done|]. cbn [ltrim].
  destruct (is_space c); [by apply sublist_cons|done].
Qed.

Lemma rtrim_sublist s : rtrim s `sublist_of` s.
Proof.
  destruct (rtrim_prefix s) as [k Hk]. rewrite Hk at 2.
  apply sublist_inserts_r. done.
Qed.

Lemma trim_sublist s : trim s `sublist_of` s.
Proof.
  unfold trim. etrans; [apply rtrim_sublist|apply ltrim_sublist].
Qed.

Lemma strip_urls_sublist b s : strip_urls b s `sublist_of` s.
Proof.
  revert b. induction s as [|c r IH]; intros b; [done|]. cbn [strip_urls].
  destruct b.
  - destruct (is_space c); [by apply sublist_skip|by apply sublist_cons].
  - destruct (http_at (c :: r)); [by apply sublist_cons|by apply sublist_skip].
Qed.

Lemma drop_runs_sublist run s : drop_runs run s `sublist_of` s.
Proof.
  revert run. induction s as [|c r IH]; intros run; [done|]. cbn [drop_runs].
  destruct (decide (run = Some c)); [by apply sublist_cons|].
  destruct (pair_at (c :: r)); [by apply sublist_cons|by apply sublist_skip].
Qed.

Lemma squeeze_length b s : (length (squeeze b s) ≤ length s)%nat.
Proof.
  revert b. induction s as [|c r IH]; intros b; [done|]. cbn [squeeze].
  destruct (is_space c); [destruct b|]; cbn [length];
    [specialize (IH true)|specialize (IH true)|specialize (IH false)]; lia.
Qed.

Lemma squeeze_plain b s :
  Forall (λ c, is_space c = true → c = 32) (squeeze b s).
Proof.
  revert b. induction s as [|c r IH]; intros b; [constructor|].
  cbn [squeeze]. destruct (is_space c) eqn:E.
  - destruct b; [done|]. by constructor.
  - constructor; [congruence|done].
Qed.

Lemma rtrim_last s a : last (rtrim s) = Some a → is_space a = false.
Proof.
  induction s as [|c r IH]; [done|]. cbn [rtrim].
  destruct (rtrim r) as [|x o] eqn:E.
  - destruct (is_space c) eqn:Hc; cbn; [done|]. by intros [= <-].
  - rewrite last_cons_cons. apply IH.
Qed.

(** X1. The normalized text neither begins nor ends with a whitespace
    character. *)
Theorem processData_trimmed t :
  (∀ a, head (processData t) = Some a → is_space a = false)
  ∧ (∀ a, last (processData t) = Some a → is_space a = false).
Proof.
  unfold processData. split; intros a Ha.
  - destruct (trim _) as [|c o] eqn:E; [done|].
    injection Ha as ->. by apply trim_head in E.
  - by apply rtrim_last in Ha.
Qed.

(** X2. Every whitespace character left in the normalized text is the
    plain space U+0020: tabs, line breaks and the other Unicode spaces
    never survive. *)
Theorem processData_plain_spaces t :
  Forall (λ c, is_space c = true → c = 32) (processData t).
Proof.
  unfold processData.
  eapply Forall_of_sublist; [apply trim_sublist|].
  eapply Forall_of_sublist; [apply drop_runs_sublist|].
  apply squeeze_plain.
Qed.

(** X3. Normalization never makes a text longer. *)
Theorem processData_length t : (length (processData t) ≤ length t)%nat.
Proof.
  unfold processData.
  etrans; [apply sublist_length, trim_sublist|].
  etrans; [apply sublist_length, drop_runs_sublist|].
  etrans; [apply squeeze_length|].
  apply sublist_length, strip_urls_sublist.
Qed.

(** X4. A text that is already clean is returned unchanged: no
    [http] followed by a non-whitespace character, every whitespace a
    single plain space, no symbol followed by itself, nothing to
    trim. *)
Theorem processData_fixed_point t :
  free_of http_at t = true →
  free_of loose_space_at t = true →
  free_of pair_at t = true →
  trim t = t →
  processData t = t.
Proof.
  intros Hh Hs Hp Ht. unfold processData.
  rewrite strip_urls_id by done.
  rewrite squeeze_id by done.
  by rewrite drop_runs_id.
Qed.

Lemma processData_fixed_point_witness :
  free_of http_at (lit "see http now, ok_") = true
  ∧ free_of loose_space_at (lit "see http now, ok_") = true
  ∧ free_of pair_at (lit "see http now, ok_") = true
  ∧ trim (lit "see http now, ok_") = lit "see http now, ok_"
  ∧ processData (lit "see http now, ok_") = lit "see http now, ok_".
Proof.
  do 4 (split; [vm_compute; reflexivity|]).
  apply processData_fixed_point; vm_compute; reflexivity.
Defined.

Lemma strip_urls_blank s :
  Forall (λ c, is_space c = true) s → strip_urls false s = s.
Proof.
  induction 1 as [|c r Hc _ IH]; [done|]. cbn [strip_urls].
  destruct (http_at (c :: r)) eqn:E; [|by rewrite IH].
  apply http_at_inv in E as (e & o & [= -> _] & _). done.
Qed.

Lemma squeeze_blank s :
  Forall (λ c, is_space c = true) s → squeeze true s = [].
Proof.
  induction 1 as [|c r Hc _ IH]; [done|]. cbn [squeeze]. by rewrite Hc.
Qed.

(** X5. A text made of whitespace only, the empty text included, is
    normalized to the empty text. *)
Theorem processData_blank t :
  Forall (λ c, is_space c = true) t → processData t = [].
Proof.
  intros Ht. unfold processData. rewrite strip_urls_blank by done.
  destruct Ht as [|c r Hc Hr]; [done|].
  cbn [squeeze]. rewrite Hc, squeeze_blank by done.
  reflexivity.
Qed.

Lemma processData_blank_witness :
  Forall (λ c, is_space c = true) [32; 9; 10; 160; 8232]
  ∧ processData [32; 9; 10; 160; 8232] = [].
Proof.
  split; [repeat constructor|].
  apply processData_blank. repeat constructor.
Defined.

End NormalizerShape.

(** ** The serialized artifact *)

Section Serialization.

Lemma hex_digit_printable n : 32 ≤ hex_digit n.
Proof. unfold hex_digit. destruct (n <? 10); lia. Qed.

Lemma unicode_escape_printable c : Forall (λ u, 32 ≤ u) (unicode_escape c).
Proof.
  unfold unicode_escape.
  repeat constructor; try apply hex_digit_printable; lia.
Qed.

Lemma quote_unit_printable c : Forall (λ u, 32 ≤ u) (quote_unit c).
Proof.
  unfold quote_unit.
  repeat (case_match; [vm_compute; repeat constructor; discriminate|]).
  destruct ((c <? 32) || is_low_surrogate c) eqn:E.
  - apply unicode_escape_printable.
  - apply orb_false_iff in E as [E%N.ltb_ge _]. by repeat constructor.
Qed.

Lemma quote_units_printable s :
  Forall (λ u, 32 ≤ u) (quote_units s)
  ∧ ∀ c, Forall (λ u, 32 ≤ u) (quote_units (c :: s)).
Proof.
  induction s as [|d r [IH1 IH2]].
  - split; [constructor|]. intros c. cbn [quote_units].
    destruct (is_high_surrogate c); [apply unicode_escape_printable|].
    rewrite app_nil_r. apply quote_unit_printable.
  - split; [apply IH2|]. intros c. cbn [quote_units].
    destruct (is_high_surrogate c) eqn:Hc.
    + unfold is_high_surrogate in Hc.
      apply andb_true_iff in Hc as [Hc%N.leb_le _].
      destruct (is_low_surrogate d) eqn:Hd.
      * unfold is_low_surrogate in Hd.
        apply andb_true_iff in Hd as [Hd%N.leb_le _].
        constructor; [lia|]. constructor; [lia|done].
      * apply Forall_app. split; [apply unicode_escape_printable|apply IH2].
    + apply Forall_app. split; [apply quote_unit_printable|apply IH2].
Qed.

(** X6. The JSON text of an artifact holds no raw control character,
    whatever the title and the content: line breaks, tabs and the
    other code units below U+0020 are always written as escapes, so
    the artifact is a single line. *)
Theorem JSON_title_content_printable title content :
  Forall (λ u, 32 ≤ u) (JSON_title_content title content).
Proof.
  unfold JSON_title_content, JSON_string.
  repeat (apply Forall_app; split);
    try apply quote_units_printable;
    try (vm_compute; repeat constructor; discriminate).
Qed.

End Serialization.

(** ** The extractor on the two variants *)

Section Extraction.
Context `{!Platform}.

(** Induction on documents, with the hypothesis for every child. *)
Lemma dom_rect' (P : dom → Prop) :
  (∀ s, P (Text s)) →
  (∀ tag cs, Forall P cs → P (Element tag cs)) →
  ∀ d, P d.
Proof.
  intros HT HE. fix IH 1. intros [s|tag cs]; [apply HT|]. apply HE.
  induction cs as [|c cs IHcs]; [apply Forall_nil_2|].
  apply Forall_cons_2; [apply IH|apply IHcs].
Qed.

Lemma select_children tag t cs :
  select tag (Element t cs)
  = (if decide (t = tag) then [Element t cs] else []) ++ (cs ≫= select tag).
Proof.
  reflexivity.
Qed.

Lemma remove_children tag t cs :
  remove tag (Element t cs)
  = if decide (t = tag) then [] else [Element t (cs ≫= remove tag)].
Proof.
  reflexivity.
Qed.

Lemma bind_nil_Forall {A B} (f : A → list B) (l : list A) :
  Forall (λ x, f x = []) l → l ≫= f = [].
Proof. induction 1 as [|x l Hx _ IH]; [done|]. cbn. by rewrite Hx, IH. Qed.

Lemma bind_id_Forall {A} (f : A → list A) (l : list A) :
  Forall (λ x, f x = [x]) l → l ≫= f = l.
Proof. induction 1 as [|x l Hx _ IH]; [done|]. cbn. by rewrite Hx, IH. Qed.

Lemma bind_nil_inv {A B} (f : A → list B) (l : list A) :
  l ≫= f = [] → Forall (λ x, f x = []) l.
Proof.
  induction l as [|x l IH]; [constructor|]. cbn.
  intros [? ?]%app_eq_nil. constructor; auto.
Qed.

(** After [$(tag).remove()] no element with that tag is left. *)
Lemma select_remove tag d : remove tag d ≫= select tag = [].
Proof.
  induction d as [s|t cs IH] using dom_rect'; [done|].
  rewrite remove_children. destruct (decide (t = tag)) as [|Hne]; [done|].
  cbn [mbind list_bind]. rewrite app_nil_r, select_children.
  rewrite decide_False by done. cbn [app].
  induction IH as [|c cs Hc _ IHcs]; [done|].
  cbn. rewrite bind_app, Hc. done.
Qed.

(** Removing the elements of one tag creates no element of another. *)
Lemma select_remove_other tag tag' d :
  select tag d = [] → remove tag' d ≫= select tag = [].
Proof.
  induction d as [s|t cs IH] using dom_rect'; [done|].
  rewrite select_children, remove_children.
  destruct (decide (t = tag)); [done|]. cbn [app].
  intros Hcs%bind_nil_inv.
  destruct (decide (t = tag')); [done|].
  cbn [mbind list_bind]. rewrite app_nil_r, select_children.
  rewrite decide_False by done. cbn [app].
  induction IH as [|c cs Hc _ IHcs]; [done|].
  apply Forall_cons in Hcs as [Hc' Hcs].
  cbn. rewrite bind_app, (Hc Hc'). by apply IHcs.
Qed.

(** Without an element of that tag, [$(tag).remove()] changes nothing. *)
Lemma remove_absent tag d : select tag d = [] → remove tag d = [d].
Proof.
  induction d as [s|t cs IH] using dom_rect'; [done|].
  rewrite select_children, remove_children.
  destruct (decide (t = tag)); [done|]. cbn [app].
  intros Hcs%bind_nil_inv. do 2 f_equal.
  apply bind_id_Forall.
  induction IH as [|c cs Hc _ IHcs]; [constructor|].
  apply Forall_cons in Hcs as [Hc' Hcs]. constructor; auto.
Qed.

Lemma without_remove tag doc : without tag (doc ≫= remove tag).
Proof.
  unfold without. induction doc as [|d doc IH]; [done|].
  cbn. by rewrite bind_app, select_remove, IH.
Qed.

Lemma without_remove_other tag tag' doc :
  without tag doc → without tag (doc ≫= remove tag').
Proof.
  unfold without. induction doc as [|d doc IH]; [done|]. cbn.
  intros [Hd Hdoc]%app_eq_nil.
  by rewrite bind_app, select_remove_other, IH.
Qed.

Lemma without_foldl tag doc tags :
  without tag doc →
  without tag (foldl (λ doc tag, doc ≫= remove tag) doc tags).
Proof.
  revert doc. induction tags as [|t tags IH]; intros doc; [done|].
  cbn [foldl]. intros Hd. by apply IH, without_remove_other.
Qed.

Lemma remove_without tag doc : without tag doc → doc ≫= remove tag = doc.
Proof.
  unfold without. induction doc as [|d doc IH]; [done|]. cbn.
  intros [Hd Hdoc]%app_eq_nil. by rewrite remove_absent, IH.
Qed.

(** X7. The two variants of [scrapeData] give the same title and the
    same body text for every page: the second [form] entry in the
    revised list of excluded tags finds nothing left to remove. *)
Theorem scrapeData_variants_agree htmlContent :
  scrapeData Revised htmlContent = scrapeData Original htmlContent.
Proof.
  assert (HR : excludedTags Revised = excludedTags Original ++ [lit "form"])
    by reflexivity.
  assert (HO : excludedTags Original
               = (lit <$> ["a"; "button"; "link"; "script"]%string)
                 ++ lit "form"
                    :: (lit <$> ["i"; "input"; "video"; "image"; "textarea";
                                 "img"; "vid"; "iframe"; "footer"]%string))
    by reflexivity.
  unfold scrapeData. rewrite HR, foldl_app. cbn [foldl].
  rewrite remove_without; [done|].
  rewrite HO, foldl_app. cbn [foldl].
  apply without_foldl, without_remove.
Qed.


End Extraction.

(** ** The links of a result page *)

Section Links.
Context `{!Platform}.

Lemma startsWith_app p s : startsWith p (p ++ s) = true.
Proof. induction p as [|a p IH]; [done|]. cbn. by rewrite N.eqb_refl. Qed.

Lemma startsWith_inv p s : startsWith p s = true → ∃ k, s = p ++ k.
Proof.
  revert s. induction p as [|a p IH]; intros s; [by exists s|].
  destruct s as [|b s]; [done|]. cbn.
  intros [->%N.eqb_eq [k ->]%IH]%andb_true_iff. by exists k.
Qed.

Lemma indexOf_from_skip i c p pre s :
  Forall (λ u, u ≠ c) pre →
  indexOf_from i (c :: p) (pre ++ s)
  = indexOf_from (i + Z.of_nat (length pre)) (c :: p) s.
Proof.
  intros Hpre. revert i. induction Hpre as [|u pre Hu _ IH]; intros i.
  { cbn [length app]. f_equal. lia. }
  cbn [app indexOf_from startsWith].
  apply N.eqb_neq in Hu. rewrite (N.eqb_sym c u), Hu. cbn [andb].
  rewrite IH. f_equal. cbn [length]. lia.
Qed.

Lemma indexOf_from_here i p s : indexOf_from i p (p ++ s) = i.
Proof.
  destruct p as [|c p]; [by destruct s|].
  cbn [app indexOf_from]. change (c :: p ++ s) with ((c :: p) ++ s).
  by rewrite startsWith_app.
Qed.

Lemma indexOf_from_range i p s :
  (indexOf_from i p s = -1 ∨
   i ≤ indexOf_from i p s ≤ i + Z.of_nat (length s))%Z.
Proof.
  revert i. induction s as [|c s IH]; intros i; cbn [indexOf_from].
  - destruct (startsWith p []); [right; cbn; lia|by left].
  - destruct (startsWith p (c :: s)); [right; cbn [length]; lia|].
    destruct (IH (i + 1)%Z) as [->|?]; [by left|right]. cbn [length]. lia.
Qed.

Lemma substring_slice (i n : nat) (s : list N) :
  (i + n ≤ length s)%nat →
  substring (Z.of_nat i) (Z.of_nat (i + n)) s = take n (drop i s).
Proof.
  intros Hlen. unfold substring. cbv zeta.
  replace (Z.min (Z.max (Z.of_nat i) 0) (Z.of_nat (length s)))
    with (Z.of_nat i) by lia.
  replace (Z.min (Z.max (Z.of_nat (i + n)) 0) (Z.of_nat (length s)))
    with (Z.of_nat (i + n)) by lia.
  replace (Z.min (Z.of_nat i) (Z.of_nat (i + n))) with (Z.of_nat i) by lia.
  replace (Z.max (Z.of_nat i) (Z.of_nat (i + n)))
    with (Z.of_nat (i + n)) by lia.
  f_equal; [lia|]. f_equal. lia.
Qed.

(** X9. Cutting a destination out of the redirect link in which the
    search engine wraps it gives the destination back: the link is a
    prefix without the letter [h], the destination, which starts with
    [http] and holds no [&], and the tracking parameters from [&sa=]
    on. *)
Theorem destination_of_wrapped prefix url tracking :
  Forall (λ u, u ≠ 104) prefix →
  Forall (λ u, u ≠ 38) (prefix ++ url) →
  startsWith (lit "http") url = true →
  destination (prefix ++ url ++ lit "&sa=" ++ tracking) = url.
Proof.
  intros Hprefix Hamp [rest ->]%startsWith_inv. unfold destination, indexOf.
  set (url := lit "http" ++ rest) in *.
  assert (Hi : indexOf_from 0 (lit "http")
                 (prefix ++ url ++ lit "&sa=" ++ tracking)
               = Z.of_nat (length prefix)).
  { rewrite (indexOf_from_skip 0 104 (lit "ttp") prefix _ Hprefix).
    subst url. rewrite <- (app_assoc (lit "http")).
    apply (indexOf_from_here _ (lit "http")). }
  assert (Hj : indexOf_from 0 (lit "&sa=")
                 (prefix ++ url ++ lit "&sa=" ++ tracking)
               = Z.of_nat (length prefix + length url)).
  { rewrite (app_assoc prefix).
    rewrite (indexOf_from_skip 0 38 (lit "sa=") (prefix ++ url) _ Hamp).
    rewrite (indexOf_from_here _ (lit "&sa=")), length_app. lia. }
  rewrite Hi, Hj.
  rewrite substring_slice by (rewrite !length_app; lia).
  rewrite drop_app_length. by rewrite take_app_length.
Qed.

Lemma destination_of_wrapped_witness :
  Forall (λ u, u ≠ 104) (lit "/url?q=")
  ∧ Forall (λ u, u ≠ 38) (lit "/url?q=" ++ lit "http://b.example/guide")
  ∧ startsWith (lit "http") (lit "http://b.example/guide") = true
  ∧ destination (lit "/url?q=" ++ lit "http://b.example/guide"
                 ++ lit "&sa=" ++ lit "U&ved=2ah")
    = lit "http://b.example/guide".
Proof.
  assert (H1 : Forall (λ u, u ≠ 104) (lit "/url?q="))
    by (apply (bool_decide_unpack _); vm_compute; exact I).
  assert (H2 : Forall (λ u, u ≠ 38)
                 (lit "/url?q=" ++ lit "http://b.example/guide"))
    by (apply (bool_decide_unpack _); vm_compute; exact I).
  split_and!; [done|done|vm_compute; reflexivity|].
  apply destination_of_wrapped; [done|done|vm_compute; reflexivity].
Defined.

(** X10. From a link without the marker [&sa=] the text taken is not
    the destination but what stands before the first [http] (nothing,
    when the link starts with it or does not hold it). *)
Theorem destination_without_marker href :
  indexOf (lit "&sa=") href = (-1)%Z →
  destination href = take (Z.to_nat (indexOf (lit "http") href)) href.
Proof.
  intros Hm. unfold destination. rewrite Hm. unfold substring. cbv zeta.
  pose proof (indexOf_from_range 0 (lit "http") href) as Hr.
  fold (indexOf (lit "http") href) in Hr.
  match goal with
  | |- take ?n (drop ?i href) = _ =>
      replace i with 0%nat by lia;
      replace n with (Z.to_nat (indexOf (lit "http") href)) by lia
  end.
  reflexivity.
Qed.

Lemma destination_without_marker_witness :
  indexOf (lit "&sa=") (lit "/search?q=http://b.example") = (-1)%Z
  ∧ destination (lit "/search?q=http://b.example") = lit "/search?q=".
Proof.
  split; [vm_compute; reflexivity|].
  rewrite destination_without_marker by (vm_compute; reflexivity).
  vm_compute. reflexivity.
Defined.

Lemma scan_links_accepted v topic links searchResults :
  Forall (λ u, accepted v topic u = true) searchResults →
  Forall (λ u, accepted v topic u = true)
         (scan_links v topic links searchResults).1.
Proof.
  revert searchResults. induction links as [|href rest IH];
    intros searchResults Hacc; [done|].
  cbn [scan_links]. destruct (decodeURIComponent _) as [actualUrl|]; [|done].
  apply IH. destruct (accepted v topic actualUrl) eqn:E; [|done].
  apply Forall_app. split; [done|]. by constructor.
Qed.

Lemma search_accepted v topic websitesNumber todo searchResults w found w' :
  search v topic websitesNumber todo searchResults w = (Ok found, w') →
  Forall (λ u, accepted v topic u = true) searchResults →
  Forall (λ u, accepted v topic u = true) found.
Proof.
  revert searchResults w. induction todo as [|page later IH];
    intros searchResults w.
  { cbn. by intros [= <- <-]. }
  intros [(e & [=] & _)|(links & found1 & w1 & Hf & _ & _ & Hrun)]%search_turn
    Hacc.
  subst found1.
  assert (Forall (λ u, accepted v topic u = true)
            (searchResults ++ (scan_links v topic links []).1)) as Hacc1.
  { apply Forall_app. split; [done|]. by apply scan_links_accepted. }
  destruct (reached _ websitesNumber).
  - by destruct Hrun as [[= ->] _].
  - by eapply IH.
Qed.

(** X11. Every candidate the search returns has passed the filter: it
    parses as a URL, holds the name of no excluded domain anywhere in
    its text and, in the revised program, does not end with [.pdf]. *)
Theorem search_candidates_filtered v topic websitesNumber w found w' :
  search v topic websitesNumber pages [] w = (Ok found, w') →
  Forall (λ u, is_Some (hostname u)
               ∧ Forall (λ domain, includes domain u = false)
                        (EXCLUDED_DOMAINS v)
               ∧ (v = Revised → endsWith (lit ".pdf") u = false)) found.
Proof.
  intros Hs%search_accepted; [|constructor].
  eapply Forall_impl; [exact Hs|]. intros u. unfold accepted, isValidURL.
  intros [[Hv He]%andb_true_iff Hk]%andb_true_iff.
  apply bool_decide_eq_true in Hv. apply negb_true_iff in He.
  split_and!; [done| |].
  - apply Forall_forall. intros domain Hd%list_elem_of_In.
    destruct (includes domain u) eqn:E; [|done].
    assert (existsb (λ domain, includes domain u) (EXCLUDED_DOMAINS v) = true)
      by (apply existsb_exists; eauto).
    congruence.
  - intros ->. by apply negb_true_iff in Hk.
Qed.



End Links.

Lemma search_candidates_filtered_witness :
  ∃ found w',
    search (H := web) Revised (lit "x") (Some 3%Z) pages [] fresh = (Ok found, w')
    ∧ Forall (λ u, is_Some (@hostname web u)
                   ∧ Forall (λ domain, includes domain u = false)
                            (EXCLUDED_DOMAINS Revised)
                   ∧ (Revised = Revised → endsWith (lit ".pdf") u = false))
             found.
Proof.
  eexists _, _. split; [vm_compute; reflexivity|].
  eapply (search_candidates_filtered (H := web) Revised (lit "x") (Some 3%Z)
            fresh).
  vm_compute. reflexivity.
Defined.


(** ** The fetcher and its cache *)

Section Fetcher.
Context `{!Platform}.

(** What a fetch can change: the request counter and the journal, and
    the cache entry of the URL when the promise resolves with a page. *)
Lemma fetch_effect v url w r w' :
  fetchWebPage v url w = (r, w') →
  fs w' = fs w ∧ timers w' = timers w
  ∧ (cache w' = cache w
     ∨ ∃ body, r = Ok (Promise (Resolved body))
               ∧ cache w' = <[url := body]> (cache w)).
Proof.
  unfold fetchWebPage, on_response, console_error, logEvent. run.
  destruct (in_cache url (cache w)); run; [intros [= <- <-]; auto|].
  destruct v; run.
  - destruct (via_request _); run; intros [= <- <-]; cbn; eauto 10.
  - repeat case_match; run; intros [= <- <-]; cbn; eauto 10.
Qed.



Lemma fetch_miss v url w :
  in_cache url (cache w) = None →
  ∃ o w', fetchWebPage v url w = (Ok (Promise o), w')
          ∧ requests w' = S (requests w).
Proof.
  intros Hc. unfold fetchWebPage, on_response, console_error, logEvent.
  run. rewrite Hc. run.
  destruct v; run; repeat case_match; run; eauto.
Qed.


(** X16. When no transport that the revised fetcher tries can connect,
    the promise is rejected with the cause reported by the insecure
    transport, the last one tried; the cause reported by the secure
    transport is dropped. *)
Theorem fetch_reports_last_cause url w cause :
  in_cache url (cache w) = None →
  via_http (net (requests w) url) = ConnError cause →
  (startsWith (lit "https://") url = true →
   ∃ first, via_https (net (requests w) url) = ConnError first) →
  (fetchWebPage Revised url w).1
  = Ok (Promise (Rejected (PlainError
      (lit "Error fetching web page: " ++ cause)))).
Proof.
  intros Hc Hh Hs. unfold fetchWebPage. run. rewrite Hc. run. rewrite Hh.
  destruct (startsWith (lit "https://") url); [|done].
  destruct Hs as [first ->]; done.
Qed.

End Fetcher.




Lemma fetch_reports_last_cause_witness :
  (fetchWebPage (H := web) Revised (lit "https://d.example") fresh).1
  = Ok (Promise (Rejected (PlainError
      (lit "Error fetching web page: connect ECONNREFUSED")))).
Proof.
  apply (fetch_reports_last_cause (H := web) (lit "https://d.example") fresh
           (lit "connect ECONNREFUSED")).
  - vm_compute. reflexivity.
  - vm_compute. reflexivity.
  - intros _. exists (lit "connect ECONNREFUSED"). vm_compute. reflexivity.
Defined.

(** ** The artifact store, its timers and the packager *)

Section Store.
Context `{!Platform}.

(** The world after a save that goes through. *)
Lemma saveData_effect v url title processedText folderName outputFormat w domain :
  hostname url = Some domain →
  (∀ data, fs w !! resolve (dirname ++ lit "/" ++ folderName) ≠ Some (File data)) →
  let folder := resolve (dirname ++ lit "/" ++ folderName) in
  let before := match fs w !! folder with
                | Some (Folder files) => files
                | _ => ∅
                end in
  ∃ w',
    saveData v url title processedText folderName outputFormat w = (Ok (), w')
    ∧ fs w' = <[folder := Folder
                  (<[domain ++ lit "." ++ outputFormat
                     := serialize title processedText outputFormat]> before)]>
              (fs w)
    ∧ cache w' = delete url (cache w)
    ∧ timers w' = timers w ++ [{| delay := save_ttl v; target := folder |}].
Proof.
  intros Hd Hf. unfold saveData. rewrite Hd.
  set (folderPath := dirname ++ lit "/" ++ folderName) in *. cbv zeta.
  run. unfold existsSync.
  destruct (fs w !! resolve folderPath) as [[data|files]|] eqn:E.
  - by destruct (Hf data).
  - rewrite bool_decide_eq_true_2 by eauto. run.
    unfold writeFileSync. rewrite E. run. unfold setTimeout. run.
    eexists. split; [done|]. done.
  - rewrite bool_decide_eq_false_2 by (by intros [? ?]). run.
    unfold mkdirSync. rewrite E. run.
    unfold writeFileSync. cbn [fs note set_fs]. rewrite lookup_insert_eq. run.
    unfold setTimeout. run.
    eexists. split; [done|]. cbn. by rewrite insert_insert_eq.
Qed.

(** X17. A save writes one file and forgets one cache entry: every
    other path of the file system, every other file of the session
    folder and every other cache entry is as before, and the cache no
    longer knows the saved URL. *)
Theorem saveData_touches_only_its_file v url title processedText folderName
    outputFormat w domain :
  hostname url = Some domain →
  (∀ data, fs w !! resolve (dirname ++ lit "/" ++ folderName) ≠ Some (File data)) →
  ∃ w' files,
    saveData v url title processedText folderName outputFormat w = (Ok (), w')
    ∧ fs w' !! resolve (dirname ++ lit "/" ++ folderName) = Some (Folder files)
    ∧ (∀ path, path ≠ resolve (dirname ++ lit "/" ++ folderName) →
               fs w' !! path = fs w !! path)
    ∧ (∀ before, fs w !! resolve (dirname ++ lit "/" ++ folderName)
                 = Some (Folder before) →
                 ∀ name, name ≠ domain ++ lit "." ++ outputFormat →
                         files !! name = before !! name)
    ∧ cache w' !! url = None
    ∧ (∀ other, other ≠ url → cache w' !! other = cache w !! other).
Proof.
  intros Hd Hf.
  destruct (saveData_effect v url title processedText folderName outputFormat
              w domain Hd Hf) as (w' & Hrun & Hfs & Hc & _).
  cbv zeta in Hfs. eexists w', _. split; [done|].
  rewrite Hfs, Hc. split_and!.
  - apply lookup_insert_eq.
  - intros path Hp. by rewrite lookup_insert_ne.
  - intros before -> name Hn. by rewrite lookup_insert_ne.
  - apply lookup_delete_eq.
  - intros other Ho. by rewrite lookup_delete_ne.
Qed.

(** X18. Two URLs of the same host share one artifact file: the second
    save overwrites the first, and the folder holds no more files than
    after the first save. *)
Theorem saveData_last_write_wins v url1 url2 title1 title2 text1 text2
    folderName outputFormat w domain :
  hostname url1 = Some domain → hostname url2 = Some domain →
  (∀ data, fs w !! resolve (dirname ++ lit "/" ++ folderName) ≠ Some (File data)) →
  ∃ w1 w2 files1 files2,
    saveData v url1 title1 text1 folderName outputFormat w = (Ok (), w1)
    ∧ saveData v url2 title2 text2 folderName outputFormat w1 = (Ok (), w2)
    ∧ fs w1 !! resolve (dirname ++ lit "/" ++ folderName) = Some (Folder files1)
    ∧ fs w2 !! resolve (dirname ++ lit "/" ++ folderName) = Some (Folder files2)
    ∧ files2 !! (domain ++ lit "." ++ outputFormat)
      = Some (serialize title2 text2 outputFormat)
    ∧ size files2 = size files1.
Proof.
  intros Hd1 Hd2 Hf.
  destruct (saveData_effect v url1 title1 text1 folderName outputFormat
              w domain Hd1 Hf) as (w1 & Hrun1 & Hfs1 & _).
  cbv zeta in Hfs1.
  assert (Hf1 : ∀ data, fs w1 !! resolve (dirname ++ lit "/" ++ folderName)
                        ≠ Some (File data))
    by (intros data; by rewrite Hfs1, lookup_insert_eq).
  destruct (saveData_effect v url2 title2 text2 folderName outputFormat
              w1 domain Hd2 Hf1) as (w2 & Hrun2 & Hfs2 & _).
  cbv zeta in Hfs2. rewrite Hfs1, lookup_insert_eq in Hfs2.
  eexists w1, w2, _, _. split_and!; [done|done| | | |].
  - rewrite Hfs1. apply lookup_insert_eq.
  - rewrite Hfs2. apply lookup_insert_eq.
  - apply lookup_insert_eq.
  - apply map_size_insert_Some. rewrite lookup_insert_eq. by eexists.
Qed.

(** *** Timers *)

Lemma resolve_resolve p :
  startsWith (lit "/") cwd = true → resolve (resolve p) = resolve p.
Proof.
  intros [k Hk]%startsWith_inv. unfold resolve.
  destruct (startsWith (lit "/") p) eqn:E; [by rewrite E|].
  rewrite Hk at 1. by rewrite <- !app_assoc, startsWith_app.
Qed.

Lemma fire_effect t w :
  ∃ w1,
    fire t w = (Ok (), w1)
    ∧ fs w1 !! resolve (target t) = None
    ∧ (∀ path, path ≠ resolve (target t) → fs w1 !! path = fs w !! path)
    ∧ fire t w1 = (Ok (), w1).
Proof.
  unfold fire, deleteFolder, existsSync. case_bool_decide as He.
  - eexists. split; [done|]. cbn [fs note set_fs].
    split_and!; [apply lookup_delete_eq| |].
    + intros path Hp. by rewrite lookup_delete_ne.
    + rewrite bool_decide_eq_false_2; [done|].
      rewrite lookup_delete_eq. by intros [? ?].
  - exists w. split; [done|]. split_and!; [by apply eq_None_not_Some|done|].
    by rewrite bool_decide_eq_false_2.
Qed.

(** X19. A timer that fires removes its folder and nothing else, and
    firing it again, or after the folder has been removed otherwise,
    changes nothing. *)
Theorem fire_removes_only_its_folder t w :
  ∃ w1,
    fire t w = (Ok (), w1)
    ∧ fs w1 !! resolve (target t) = None
    ∧ (∀ path, path ≠ resolve (target t) → fs w1 !! path = fs w !! path)
    ∧ fire t w1 = (Ok (), w1).
Proof.
  unfold fire, deleteFolder, existsSync. case_bool_decide as He.
  - eexists. split; [done|]. cbn [fs note set_fs].
    split_and!; [apply lookup_delete_eq| |].
    + intros path Hp. by rewrite lookup_delete_ne.
    + rewrite bool_decide_eq_false_2; [done|].
      rewrite lookup_delete_eq. by intros [? ?].
  - exists w. split; [done|]. split_and!; [by apply eq_None_not_Some|done|].
    by rewrite bool_decide_eq_false_2.
Qed.

(** X20. Once the timer that a save has set fires, the session folder
    is gone from the file system, whatever was saved into it
    meanwhile.  The working directory is an absolute path. *)
Theorem saved_folder_expires v url title processedText folderName
    outputFormat w domain :
  startsWith (lit "/") cwd = true →
  hostname url = Some domain →
  (∀ data, fs w !! resolve (dirname ++ lit "/" ++ folderName) ≠ Some (File data)) →
  ∃ w1 t,
    saveData v url title processedText folderName outputFormat w = (Ok (), w1)
    ∧ last (timers w1) = Some t
    ∧ delay t = save_ttl v
    ∧ ∀ w2, ∃ w3, fire t w2 = (Ok (), w3)
                  ∧ fs w3 !! resolve (dirname ++ lit "/" ++ folderName) = None.
Proof.
  intros Hcwd Hd Hf.
  destruct (saveData_effect v url title processedText folderName outputFormat
              w domain Hd Hf) as (w1 & Hrun & _ & _ & Ht).
  cbv zeta in Ht. eexists w1, _. split; [done|].
  split; [by rewrite Ht, last_snoc|]. split; [done|].
  intros w2.
  destruct (fire_effect
              {| delay := save_ttl v;
                 target := resolve (dirname ++ lit "/" ++ folderName) |} w2)
    as (w3 & Hfire & Hgone & _).
  exists w3. split; [done|]. cbn [target] in Hgone.
  by rewrite resolve_resolve in Hgone.
Qed.

(** *** The pipeline when the URL cannot be parsed *)

(** X21. A line that [new URL] rejects never produces an artifact in
    the explicit-list mode: whatever the fetch gives, the pipeline ends
    normally, writes no file, sets no timer and appends one line to
    the log. *)
Theorem processUrl_unparsable v url outputFormat folderName w :
  in_cache url (cache w) = None →
  hostname url = None →
  ∃ w' line,
    processUrl v url outputFormat folderName w = (Ok (), w')
    ∧ fs w' = fs w ∧ timers w' = timers w
    ∧ head (journal w') = Some (Logged line).
Proof.
  intros Hc Hh. unfold processUrl. run.
  destruct (fetch_miss v url w Hc) as (o & w1 & Hf & _).
  rewrite Hf. apply fetch_effect in Hf as (Hfs & Ht & _). run.
  rewrite run_attempt. destruct o as [htmlContent|e].
  - destruct (scrapeData v (VString htmlContent)) as [title bodyContent].
    unfold saveData. rewrite Hh. run. cbn [fst snd].
    unfold console_error, logEvent. run.
    eexists _, _. split; [done|]. done.
  - run. cbn [fst snd]. unfold console_error, logEvent. run.
    eexists _, _. split; [done|]. done.
Qed.

(** *** The packager *)

Lemma resolve_zip p : resolve (p ++ lit ".zip") ≠ resolve p.
Proof.
  intros Heq. apply (f_equal length) in Heq. revert Heq. unfold resolve.
  assert (startsWith (lit "/") (p ++ lit ".zip") = startsWith (lit "/") p)
    as -> by (by destruct p).
  assert (length (lit ".zip") = 4%nat) by reflexivity.
  destruct (startsWith (lit "/") p); rewrite !length_app; lia.
Qed.

(** X22. A download of a session folder that is delivered answers with
    the archive of the files of the folder and leaves neither the
    folder nor the archive file behind; nothing else in the file system
    changes. *)
Theorem download_cleans_up v folderName w files :
  fs w !! resolve folderName = Some (Folder files) →
  ∃ w',
    download v folderName None w
    = (Ok {| status := 200; body := Attachment (archive_of files) |}, w')
    ∧ fs w' !! resolve folderName = None
    ∧ fs w' !! resolve (folderName ++ lit ".zip") = None
    ∧ ∀ path, path ≠ resolve folderName →
              path ≠ resolve (folderName ++ lit ".zip") →
              fs w' !! path = fs w !! path.
Proof.
  intros Hdir. pose proof (resolve_zip folderName) as Hzip.
  unfold download. run. unfold existsSync, isDirectory. rewrite Hdir.
  rewrite bool_decide_eq_true_2 by eauto. cbn [andb]. run.
  unfold deleteFolder, existsSync. cbn [fs note set_fs].
  rewrite lookup_insert_ne, Hdir by done.
  rewrite bool_decide_eq_true_2 by eauto. run.
  unfold unlinkSync. cbn [fs note set_fs].
  rewrite lookup_delete_ne, lookup_insert_eq by done. run.
  eexists. split; [done|]. cbn [fs note set_fs]. split_and!.
  - rewrite lookup_delete_ne by done. apply lookup_delete_eq.
  - apply lookup_delete_eq.
  - intros path H1 H2.
    by rewrite !lookup_delete_ne, lookup_insert_ne.
Qed.


End Store.

Lemma saveData_touches_only_its_file_witness :
  ∃ w' files,
    saveData (H := web) Revised (lit "http://b.example/guide") (lit "T")
      (lit "a b") (lit "job1") (lit "txt") remembered = (Ok (), w')
    ∧ fs w' !! resolve (H := web) (@dirname web ++ lit "/" ++ lit "job1")
      = Some (Folder files)
    ∧ (∀ path, path ≠ resolve (H := web) (@dirname web ++ lit "/" ++ lit "job1") →
               fs w' !! path = fs remembered !! path)
    ∧ (∀ before, fs remembered
                   !! resolve (H := web) (@dirname web ++ lit "/" ++ lit "job1")
                 = Some (Folder before) →
                 ∀ name, name ≠ lit "b.example" ++ lit "." ++ lit "txt" →
                         files !! name = before !! name)
    ∧ cache w' !! lit "http://b.example/guide" = None
    ∧ (∀ other, other ≠ lit "http://b.example/guide" →
                cache w' !! other = cache remembered !! other).
Proof.
  apply (saveData_touches_only_its_file (H := web) Revised
           (lit "http://b.example/guide") (lit "T") (lit "a b") (lit "job1")
           (lit "txt") remembered (lit "b.example")).
  - vm_compute. reflexivity.
  - intros data. vm_compute. discriminate.
Defined.

Lemma saveData_last_write_wins_witness :
  ∃ w1 w2 files1 files2,
    saveData (H := web) Original (lit "http://b.example/guide") (lit "T")
      (lit "first") (lit "job1") (lit "txt") fresh = (Ok (), w1)
    ∧ saveData (H := web) Original (lit "http://b.example/tutorial") (lit "U")
        (lit "second") (lit "job1") (lit "txt") w1 = (Ok (), w2)
    ∧ fs w1 !! resolve (H := web) (@dirname web ++ lit "/" ++ lit "job1")
      = Some (Folder files1)
    ∧ fs w2 !! resolve (H := web) (@dirname web ++ lit "/" ++ lit "job1")
      = Some (Folder files2)
    ∧ files2 !! (lit "b.example" ++ lit "." ++ lit "txt")
      = Some (serialize (lit "U") (lit "second") (lit "txt"))
    ∧ size files2 = size files1.
Proof.
  apply (saveData_last_write_wins (H := web) Original
           (lit "http://b.example/guide") (lit "http://b.example/tutorial")
           (lit "T") (lit "U") (lit "first") (lit "second") (lit "job1")
           (lit "txt") fresh (lit "b.example")).
  - vm_compute. reflexivity.
  - vm_compute. reflexivity.
  - intros data. vm_compute. discriminate.
Defined.

Lemma saved_folder_expires_witness :
  ∃ w1 t,
    saveData (H := web) Revised (lit "http://b.example/guide") (lit "T")
      (lit "a b") (lit "job1") (lit "txt") fresh = (Ok (), w1)
    ∧ last (timers w1) = Some t
    ∧ delay t = save_ttl Revised
    ∧ ∀ w2, ∃ w3, fire (H := web) t w2 = (Ok (), w3)
                  ∧ fs w3 !! resolve (H := web)
                               (@dirname web ++ lit "/" ++ lit "job1") = None.
Proof.
  apply (saved_folder_expires (H := web) Revised
           (lit "http://b.example/guide") (lit "T") (lit "a b") (lit "job1")
           (lit "txt") fresh (lit "b.example")).
  - vm_compute. reflexivity.
  - vm_compute. reflexivity.
  - intros data. vm_compute. discriminate.
Defined.

Lemma processUrl_unparsable_witness :
  ∃ w' line,
    processUrl (H := web) Revised (lit "b.example/guide") (lit "txt")
      (lit "job1") remembered = (Ok (), w')
    ∧ fs w' = fs remembered ∧ timers w' = timers remembered
    ∧ head (journal w') = Some (Logged line).
Proof.
  apply (processUrl_unparsable (H := web) Revised (lit "b.example/guide")
           (lit "txt") (lit "job1") remembered).
  - vm_compute. reflexivity.
  - vm_compute. reflexivity.
Defined.

Lemma download_cleans_up_witness :
  let w := (processUrl (H := web) Revised (lit "http://b.example")
              (lit "txt") (lit "job7") fresh).2 in
  ∃ w',
    download (H := web) Revised (lit "job7") None w
    = (Ok {| status := 200;
             body := Attachment
                       (@archive_of web
                          {[ lit "b.example.txt" := lit "Hello, world" ]}) |}, w')
    ∧ fs w' !! resolve (H := web) (lit "job7") = None
    ∧ fs w' !! resolve (H := web) (lit "job7" ++ lit ".zip") = None
    ∧ ∀ path, path ≠ resolve (H := web) (lit "job7") →
              path ≠ resolve (H := web) (lit "job7" ++ lit ".zip") →
              fs w' !! path = fs w !! path.
Proof.
  apply (download_cleans_up (H := web) Revised (lit "job7")
           (processUrl (H := web) Revised (lit "http://b.example")
              (lit "txt") (lit "job7") fresh).2
           {[ lit "b.example.txt" := lit "Hello, world" ]}).
  vm_compute. reflexivity.
Defined.


(** ** The route handlers *)

Section Handlers.
Context `{!Platform}.

(** *** Explicit-list mode *)

(** X24. The call [processUrl(url, ..)] raises exactly when the URL is
    in the cache; on a miss the pipeline always ends normally, every
    failure of the fetch or of the save being caught and logged. *)
Theorem processUrl_raises_only_on_hit v url outputFormat folderName w :
  (processUrl v url outputFormat folderName w).1
  = match in_cache url (cache w) with
    | Some _ => Throw not_thenable
    | None => Ok ()
    end.
Proof.
  pose proof (processUrl_call v url outputFormat folderName w) as Hcall.
  destruct (in_cache url (cache w)).
  - by rewrite Hcall.
  - destruct Hcall as [w' ->]. done.
Qed.

(** X25. A line that names a member of [Object.prototype], such as
    [constructor] or [toString], counts as cached although the cache
    is empty: its pipeline raises before anything is fetched. *)
Theorem processUrl_inherited_key v url outputFormat folderName w :
  url ∈ object_prototype_keys →
  processUrl v url outputFormat folderName w = (Throw not_thenable, w).
Proof.
  intros Hk.
  pose proof (processUrl_call v url outputFormat folderName w) as Hcall.
  unfold in_cache in Hcall. rewrite bool_decide_eq_true_2 in Hcall by done.
  by destruct (cache w !! url).
Qed.

Lemma forEach_line_all c lines p :
  sent p = None →
  urlCount p = length (launched p) →
  (length (launched p) + length (filter (λ url, trim url ≠ []) lines) ≤ 50)%nat →
  Forall (λ url, in_cache url c = None) (filter (λ url, trim url ≠ []) lines) →
  forEach_line c lines p
  = ({| urlCount := (length (launched p)
                     + length (filter (λ url, trim url ≠ []) lines))%nat;
        launched := launched p ++ filter (λ url, trim url ≠ []) lines;
        sent := None |}, None).
Proof.
  revert p. induction lines as [|url rest IH]; intros p Hs Hc Hlen Hmiss.
  { cbn. rewrite app_nil_r, Nat.add_0_r, <- Hc, <- Hs. by destruct p. }
  cbn [forEach_line]. rewrite filter_cons in *.
  destruct (decide (trim url ≠ [])) as [Hurl|Hurl].
  2:{ rewrite bool_decide_eq_false_2 by done. by apply IH. }
  rewrite bool_decide_eq_true_2 by done.
  apply Forall_cons in Hmiss as [Hu Hmiss]. cbn [length] in Hlen.
  destruct (50 <=? urlCount p)%nat eqn:Hcap.
  { apply Nat.leb_le in Hcap. exfalso. lia. }
  rewrite Hu, IH; cbn [sent launched urlCount];
    rewrite ?length_app; cbn [length]; try done; try lia.
  rewrite <- app_assoc. cbn [app length]. f_equal. f_equal. lia.
Qed.


Lemma forEach_line_app c before after p :
  forEach_line c (before ++ after) p
  = match forEach_line c before p with
    | (p1, None) => forEach_line c after p1
    | (p1, Some e) => (p1, Some e)
    end.
Proof.
  revert p. induction before as [|url rest IH]; intros p; [done|].
  cbn [app forEach_line].
  destruct (bool_decide (trim url ≠ [])); [|apply IH].
  destruct (50 <=? urlCount p)%nat.
  - destruct (send too_many p); [apply IH|done].
  - destruct (in_cache url c); [done|apply IH].
Qed.

(** X27. A cached URL among the first 50 non-blank lines ends the
    handler with the TypeError: the pipelines of the lines before it
    have been started, those of the lines after it never are, and no
    response has been sent. *)
Theorem post_file_stops_at_cached_line v file others outputFormat uuid c
    before url after cached :
  endsWith (lit ".txt") (originalname file) = true →
  split_lines (text file) = before ++ url :: after →
  let urls := filter (λ url, trim url ≠ []) before in
  (length urls < 50)%nat →
  Forall (λ url, in_cache url c = None) urls →
  trim url ≠ [] →
  in_cache url c = Some cached →
  post_file v (file :: others) outputFormat uuid c
  = {| answer := None; raised := Some not_thenable; scheduled := urls |}.
Proof.
  intros Htxt Hlines urls Hlen Hmiss Hurl Hhit.
  unfold post_file. rewrite Htxt, Hlines. cbn [negb].
  rewrite forEach_line_app, forEach_line_all;
    [|done|done|cbn [launched length Nat.add]; fold urls; lia|done].
  cbn [forEach_line launched urlCount sent app length Nat.add]. fold urls.
  rewrite bool_decide_eq_true_2 by done.
  destruct (50 <=? length urls)%nat eqn:Hcap;
    [apply Nat.leb_le in Hcap; lia|].
  by rewrite Hhit.
Qed.

(** *** Discovery mode *)

Lemma harvest_returns v websitesNumber outputFormat folderName searchResults
    processedUrls w :
  ∃ urls w',
    harvest v websitesNumber outputFormat folderName searchResults
      processedUrls w = (Ok urls, w').
Proof.
  revert processedUrls w.
  induction searchResults as [|resultUrl later IH]; intros processedUrls w.
  { by eexists _, _. }
  cbn [harvest]. case_bool_decide; [apply IH|]. run.
  destruct (visit _ _ _ _ resultUrl processedUrls w) as [r1 w1] eqn:Hv.
  apply visit_saved in Hv as [[-> _]|(next & -> & _)]; run; [apply IH|].
  destruct next; [apply IH|]. run. by eexists _, _.
Qed.

(** X28. The discovery handler always answers: with status 200, or,
    when making the folder or encoding the topic fails, with status
    500 after a line has been written to the log.  No exception
    leaves it. *)
Theorem post_bulk_always_answers v topic outputFormat websitesNumber uuid w :
  ∃ response w',
    post_bulk v topic outputFormat websitesNumber uuid w = (Ok response, w')
    ∧ (status response = 200
       ∨ status response = 500
         ∧ ∃ line, head (journal w') = Some (Logged line)).
Proof.
  unfold post_bulk, console_error, logEvent, setTimeout. run.
  rewrite run_attempt. run.
  destruct (mkdirSync _ w) as [[[]|e] w1]; cbn [fst snd]; run.
  2:{ eexists _, _. split; [done|]. right. split; [done|]. by eexists. }
  destruct (search v topic websitesNumber pages [] w1)
    as [[searchResults|e] w2]; cbn [fst snd]; run.
  2:{ eexists _, _. split; [done|]. right. split; [done|]. by eexists. }
  match goal with
  | |- context [harvest v websitesNumber outputFormat ?f searchResults [] w2] =>
      destruct (harvest_returns v websitesNumber outputFormat f
                  searchResults [] w2) as (urls & w3 & ->)
  end.
  cbn [fst snd]. run. destruct v; run; eexists _, _; (split; [done|by left]).
Qed.

(** The body of the second loop in the original program: it passes on,
    or it records the URL and breaks exactly when the wanted number is
    reached. *)
Lemma visit_original_flow websitesNumber outputFormat folderName resultUrl
    processedUrls w r w' :
  visit Original websitesNumber outputFormat folderName resultUrl
    processedUrls w = (r, w') →
  r = Ok (processedUrls, Next)
  ∨ r = Ok (processedUrls ++ [resultUrl],
            if reached (length (processedUrls ++ [resultUrl])) websitesNumber
            then Break else Next).
Proof.
  unfold visit, processing_failed, console_error. run.
  rewrite run_attempt.
  match goal with
  | |- context [?m w] =>
      lazymatch m with
      | _ ≫= _ => destruct (m w) as [[[]|e] w1]
      end
  end; cbn [fst snd]; run.
  - destruct (reached _ _); run; intros [= <- <-]; by right.
  - intros [= <- <-]. by left.
Qed.

Lemma harvest_original_bound k outputFormat folderName searchResults
    processedUrls w urls w' :
  harvest Original (Some k) outputFormat folderName searchResults
    processedUrls w = (Ok urls, w') →
  (Z.of_nat (length urls) ≤ Z.max k (Z.of_nat (length processedUrls) + 1))%Z.
Proof.
  revert processedUrls w.
  induction searchResults as [|resultUrl later IH]; intros processedUrls w.
  { cbn. intros [= <- <-]. lia. }
  cbn [harvest]. case_bool_decide.
  { intros Hrun%IH. lia. }
  run. destruct (visit _ _ _ _ resultUrl processedUrls w) as [r1 w1] eqn:Hv.
  apply visit_original_flow in Hv as [->| ->]; run.
  { intros Hrun%IH. lia. }
  destruct (reached _ _) eqn:Hr; run.
  - intros [= <- <-]. rewrite length_app. cbn [length]. lia.
  - intros Hrun%IH. unfold reached in Hr. apply Z.leb_gt in Hr.
    rewrite length_app in *. cbn [length] in *. lia.
Qed.

(** X29. A discovery job of the original program writes at most as
    many artifacts as were asked for, and at most one when fewer than
    one were asked for. *)
Theorem original_bulk_respects_count topic outputFormat k uuid w r w' :
  post_bulk Original topic outputFormat (Some k) uuid w = (r, w') →
  ∃ urls,
    saved_urls w' = reverse urls ++ saved_urls w
    ∧ (Z.of_nat (length urls) ≤ Z.max 1 k)%Z.
Proof.
  unfold post_bulk, console_error, logEvent, setTimeout. run.
  rewrite run_attempt. run.
  destruct (mkdirSync _ w) as [[[]|e] w1] eqn:Hm;
    apply mkdirSync_keeps in Hm as [Hm _]; cbn [fst snd]; run.
  2:{ intros [= <- <-]. exists []. split; [exact Hm|cbn; lia]. }
  destruct (search Original topic (Some k) pages [] w1)
    as [[searchResults|e] w2] eqn:Hsearch;
    apply search_spec in Hsearch as (_ & Hsearch & _); cbn [fst snd]; run.
  2:{ intros [= <- <-]. exists []. split; [|cbn; lia].
      change (saved_urls w2 = saved_urls w). by rewrite Hsearch. }
  destruct (harvest Original (Some k) outputFormat _ searchResults [] w2)
    as [r3 w3] eqn:Hh.
  pose proof Hh as (urls & -> & Hsaved & _)%harvest_saved; [|constructor].
  apply harvest_original_bound in Hh. cbn [length app] in Hh.
  cbn [fst snd]. run. intros [= <- <-]. exists urls.
  split; [by rewrite Hsaved, Hsearch, Hm|lia].
Qed.

End Handlers.

Lemma processUrl_inherited_key_witness :
  lit "constructor" ∈ object_prototype_keys
  ∧ processUrl (H := web) Revised (lit "constructor") (lit "txt") (lit "job1")
      fresh
    = (Throw not_thenable, fresh).
Proof.
  assert (Hk : lit "constructor" ∈ object_prototype_keys)
    by (apply (bool_decide_unpack _); vm_compute; exact I).
  split; [exact Hk|].
  apply (processUrl_inherited_key (H := web)). exact Hk.
Defined.


Lemma post_file_stops_at_cached_line_witness :
  post_file Revised
    [{| originalname := lit "urls.txt";
        text := lit "http://a.example" ++ [10] ++ lit "http://b.example"
                ++ [10] ++ lit "http://c.example" |}]
    (lit "txt") uuid (cache remembered)
  = {| answer := None; raised := Some not_thenable;
       scheduled := [lit "http://a.example"] |}.
Proof.
  apply (post_file_stops_at_cached_line Revised _ [] (lit "txt") uuid
           (cache remembered) [lit "http://a.example"] (lit "http://b.example")
           [lit "http://c.example"] (VString (lit "Hello,  world"))).
  - vm_compute. reflexivity.
  - vm_compute. reflexivity.
  - vm_compute. lia.
  - apply (bool_decide_unpack _). vm_compute. exact I.
  - vm_compute. discriminate.
  - vm_compute. reflexivity.
Defined.

Lemma original_bulk_respects_count_witness :
  ∃ r w',
    post_bulk (H := web) Original (lit "guide") (lit "txt") (Some 1%Z) uuid fresh
    = (r, w')
    ∧ ∃ urls,
        saved_urls w' = reverse urls ++ saved_urls fresh
        ∧ (Z.of_nat (length urls) ≤ Z.max 1 1)%Z.
Proof.
  eexists _, _. split; [vm_compute; reflexivity|].
  eapply (original_bulk_respects_count (H := web) (lit "guide") (lit "txt") 1%Z
            uuid fresh).
  vm_compute. reflexivity.
Defined.

(** ** The cap on the files of a discovery job *)

Section FileCap.
Context `{!Platform}.

Lemma saveData_count v url title processedText folderName outputFormat w r w' :
  saveData v url title processedText folderName outputFormat w = (r, w') →
  let folder := dirname ++ lit "/" ++ folderName in
  (r = Ok ()
   ∧ (file_count folder w' ≤ S (file_count folder w))%nat
   ∧ is_Some (fs w' !! resolve folder))
  ∨ (∃ e, r = Throw e ∧ fs w' = fs w).
Proof.
  cbv zeta. unfold saveData, setTimeout, file_count.
  destruct (hostname url) as [domain|]; run; [|intros [= <- <-]; eauto].
  set (folderPath := dirname ++ lit "/" ++ folderName).
  destruct (existsSync folderPath w); run.
  - unfold writeFileSync.
    destruct (fs w !! resolve folderPath) as [[data|files]|] eqn:E; run;
      intros [= <- <-]; eauto.
    left. cbn [fs note set_fs set_cache add_timer].
    rewrite lookup_insert_eq. split_and!; [done| |by eexists].
    rewrite map_size_insert. destruct (files !! _); cbn; lia.
  - unfold mkdirSync.
    destruct (fs w !! resolve folderPath) as [[data|files]|] eqn:E; run;
      try (intros [= <- <-]; by eauto); unfold writeFileSync.
    + rewrite E. run. intros [= <- <-]. left.
      cbn [fs note set_fs set_cache add_timer].
      rewrite lookup_insert_eq. split_and!; [done| |by eexists].
      rewrite map_size_insert. destruct (files !! _); cbn; lia.
    + cbn [fs note set_fs]. rewrite lookup_insert_eq. run.
      intros [= <- <-]. left. cbn [fs note set_fs set_cache add_timer].
      rewrite lookup_insert_eq. split_and!; [done| |by eexists].
      rewrite map_size_insert, lookup_empty, map_size_empty. cbn. lia.
Qed.

Lemma readdirSync_count p w r w' :
  readdirSync p w = (r, w') →
  w' = w
  ∧ (∀ names, r = Ok names → length names = file_count p w)
  ∧ (∀ e, r = Throw e → file_count p w = 0%nat).
Proof.
  unfold readdirSync, file_count.
  destruct (fs w !! resolve p) as [[data|files]|]; intros [= <- <-];
    (split_and!; [done| |done]); intros names [= <-].
  by rewrite length_fmap, length_map_to_list.
Qed.

Lemma file_count_same p w w' : fs w' = fs w → file_count p w' = file_count p w.
Proof. unfold file_count. by intros ->. Qed.

(** One turn of the second loop of the revised program. *)
Lemma visit_revised_count websitesNumber outputFormat folderName resultUrl
    processedUrls w urls next w' :
  visit Revised websitesNumber outputFormat folderName resultUrl
    processedUrls w = (Ok (urls, next), w') →
  let folder := dirname ++ lit "/" ++ folderName in
  file_count folder w' = file_count folder w
  ∨ ((file_count folder w' ≤ S (file_count folder w))%nat
     ∧ (next = Break ∨ (file_count folder w' < 20)%nat)).
Proof.
  cbv zeta. unfold visit, processing_failed, console_error, console_log.
  destruct (endsWith _ resultUrl); run; [intros [= <- <- <-]; by left|].
  rewrite run_attempt. run.
  destruct (fetchWebPage Revised resultUrl w) as [[f|e] w1] eqn:Hf;
    apply fetch_effect in Hf as (Hfs & _ & _); cbn [fst snd]; run.
  2:{ intros [= <- <- <-]. left. by apply file_count_same. }
  destruct (await f w1) as [[html|e] w2] eqn:Ha;
    apply await_world in Ha as ->; cbn [fst snd]; run.
  2:{ intros [= <- <- <-]. left. by apply file_count_same. }
  destruct (is_skip html); run.
  { intros [= <- <- <-]. left. by apply file_count_same. }
  destruct (scrapeData Revised html) as [title bodyContent]. run.
  rewrite run_attempt.
  destruct (saveData _ _ _ _ _ _ w1) as [r2 w2] eqn:Hs.
  apply saveData_count in Hs as [(-> & Hn & Hdir)|(e & -> & Hs)];
    cbv zeta in *; cbn [fst snd]; run.
  2:{ intros [= <- <- <-]. left. apply file_count_same. cbn. congruence. }
  rewrite run_attempt.
  destruct (readdirSync _ w2) as [r3 w3] eqn:Hr.
  apply readdirSync_count in Hr as (-> & Hlen & Hnone). cbn [fst snd].
  rewrite (file_count_same _ w w1) in Hn by done.
  destruct r3 as [filesInFolder|e]; run.
  - specialize (Hlen _ eq_refl).
    destruct (20 <=? length filesInFolder)%nat eqn:Hcap; run;
      intros [= <- <- <-]; right; (split; [done|]).
    + by left.
    + right. apply Nat.leb_gt in Hcap. lia.
  - intros [= <- <- <-]. right. specialize (Hnone _ eq_refl).
    unfold file_count in *. cbn [fs note] in *. rewrite Hnone. lia.
Qed.

Lemma harvest_revised_count websitesNumber outputFormat folderName
    searchResults processedUrls w r w' :
  harvest Revised websitesNumber outputFormat folderName searchResults
    processedUrls w = (r, w') →
  let folder := dirname ++ lit "/" ++ folderName in
  (file_count folder w' ≤ Nat.max 20 (S (file_count folder w)))%nat.
Proof.
  cbv zeta. revert processedUrls w.
  induction searchResults as [|resultUrl later IH]; intros processedUrls w.
  { cbn. intros [= <- <-]. lia. }
  cbn [harvest]. case_bool_decide; [apply IH|]. run.
  destruct (visit _ _ _ _ resultUrl processedUrls w) as [r1 w1] eqn:Hv.
  pose proof Hv as [[-> _]|(next & -> & _)]%visit_saved;
    apply visit_revised_count in Hv; cbv zeta in Hv; run.
  - intros Hrun%IH. destruct Hv as [Hv|[Hv [[=]|Hv']]]; lia.
  - destruct next; run.
    + intros Hrun%IH. destruct Hv as [Hv|[Hv [[=]|Hv']]]; lia.
    + intros [= <- <-]. destruct Hv as [Hv|[Hv _]]; lia.
Qed.

Lemma fetch_await_fs v url w r w' :
  (fetchWebPage v url ≫= await) w = (r, w') → fs w' = fs w.
Proof.
  run. destruct (fetchWebPage v url w) as [[f|e] w1] eqn:Hf;
    apply fetch_effect in Hf as (Hfs & _).
  - by intros ->%await_world.
  - by intros [= <- <-].
Qed.

Lemma search_fs v topic websitesNumber todo searchResults w r w' :
  search v topic websitesNumber todo searchResults w = (r, w') →
  fs w' = fs w.
Proof.
  revert searchResults w.
  induction todo as [|page later IH]; intros searchResults w.
  { cbn. by intros [= <- <-]. }
  cbn [search]. destruct (encodeURIComponent topic) as [q|]; run;
    [|by intros [= <- <-]].
  rewrite run_attempt.
  match goal with
  | |- context [(fetchWebPage v ?u ≫= await) w] =>
      destruct ((fetchWebPage v u ≫= await) w) as [r1 w1] eqn:Hf
  end.
  apply fetch_await_fs in Hf. cbn [fst snd]. run.
  destruct r1 as [html|e].
  - destruct (scan_links v topic (anchors html) searchResults)
      as [found thrown].
    destruct thrown; unfold console_error, logEvent; run;
      (destruct (reached (length found) websitesNumber); run;
       [by intros [= <- <-]|intros Hrun%IH]); by rewrite Hrun.
  - unfold console_error, logEvent; run;
      (destruct (reached (length searchResults) websitesNumber); run;
       [by intros [= <- <-]|intros Hrun%IH]); by rewrite Hrun.
Qed.

Lemma mkdirSync_count p q w r w' :
  mkdirSync q w = (r, w') → file_count p w' = file_count p w.
Proof.
  unfold mkdirSync, file_count.
  destruct (fs w !! resolve q) as [[data|files]|] eqn:E;
    intros [= <- <-]; [done|done|].
  cbn [fs note set_fs].
  destruct (decide (resolve q = resolve p)) as [Heq|Hne].
  - rewrite <- Heq, lookup_insert_eq, E. apply map_size_empty.
  - by rewrite lookup_insert_ne.
Qed.

(** X30. The secondary cap of the revised discovery job: the session
    folder of a job ends with at most 20 files, or, if it held 20 or
    more when the job began, with at most one more than it held. *)
Theorem revised_bulk_caps_files topic outputFormat websitesNumber uuid w r w' :
  post_bulk Revised topic outputFormat websitesNumber uuid w = (r, w') →
  let folder := dirname ++ lit "/" ++ job_id uuid ++ lit "_" ++ underscored topic in
  (file_count folder w' ≤ Nat.max 20 (S (file_count folder w)))%nat.
Proof.
  cbv zeta. unfold post_bulk, console_error, logEvent, setTimeout. run.
  rewrite run_attempt. run.
  set (folder := dirname ++ lit "/" ++ job_id uuid ++ lit "_" ++ underscored topic).
  destruct (mkdirSync _ w) as [[[]|e] w1] eqn:Hm;
    apply (mkdirSync_count folder) in Hm; cbn [fst snd]; run.
  2:{ intros [= <- <-]. unfold file_count in *. cbn [fs note] in *. lia. }
  destruct (search Revised topic websitesNumber pages [] w1)
    as [[searchResults|e] w2] eqn:Hsearch;
    apply search_fs in Hsearch; apply (file_count_same folder) in Hsearch;
    cbn [fst snd]; run.
  2:{ intros [= <- <-]. unfold file_count in *. cbn [fs note] in *. lia. }
  destruct (harvest Revised websitesNumber outputFormat _ searchResults [] w2)
    as [[urls|e] w3] eqn:Hh; apply harvest_revised_count in Hh;
    cbv zeta in Hh; fold folder in Hh; cbn [fst snd]; run;
    intros [= <- <-]; unfold file_count in *;
    cbn [fs note add_timer] in *; lia.
Qed.

End FileCap.

Lemma revised_bulk_caps_files_witness :
  ∃ r w',
    post_bulk (H := web) Revised (lit "x") (lit "txt") (Some 3%Z) uuid fresh
    = (r, w')
    ∧ (file_count (H := web)
         (@dirname web ++ lit "/" ++ job_id uuid ++ lit "_" ++ underscored (lit "x"))
         w'
       ≤ Nat.max 20
           (S (file_count (H := web)
                 (@dirname web ++ lit "/" ++ job_id uuid ++ lit "_"
                  ++ underscored (lit "x")) fresh)))%nat.
Proof.
  eexists _, _. split; [vm_compute; reflexivity|].
  eapply (revised_bulk_caps_files (H := web) (lit "x") (lit "txt") (Some 3%Z)
            uuid fresh).
  vm_compute. reflexivity.
Defined.
